(** * Style state of scene-graph shapes: [charts/scene/shape/shape.ts]

    A shallow embedding of the abstract class [Shape]: its nine style
    attributes with their change-tracking setters, the three reset
    operations over the chained [defaultStyles] objects, the application of
    the attributes to a canvas context, and the hit-testing contract. *)

From Stdlib Require Import Bool List String ZArith Lia.
From Stdlib Require Import Floats.SpecFloat.
Import ListNotations.
Local Open Scope string_scope.
Local Open Scope bool_scope.
Local Open Scope list_scope.

(** ** ECMAScript numbers

    A TypeScript [number] is an IEEE 754 binary64 value.  The Standard
    Library's [spec_float] has exactly the values the language can tell
    apart: two zeros, two infinities, one NaN and the finite numbers. *)

Module Num.

Definition number := spec_float.

Definition prec : Z := 53.
Definition emax : Z := 1024.

Definition NaN : number := S754_nan.
Definition pos_infinity : number := S754_infinity false.
Definition neg_infinity : number := S754_infinity true.
Definition pos_zero : number := S754_zero false.
Definition neg_zero : number := S754_zero true.

(** The number denoted by an integer literal. *)
Definition of_Z (z : Z) : number := binary_normalize prec emax z 0 false.

(** The number denoted by the decimal literal [m / 10^d], correctly rounded. *)
Definition of_decimal (m : Z) (d : nat) : number :=
  SFdiv prec emax (of_Z m) (of_Z (10 ^ Z.of_nat d)).

Definition zero : number := pos_zero.
Definition one : number := Eval cbv in of_Z 1.

Definition isNaN (x : number) : bool :=
  match x with S754_nan => true | _ => false end.

Definition is_pos_zero (x : number) : bool :=
  match x with S754_zero false => true | _ => false end.

Definition is_neg_zero (x : number) : bool :=
  match x with S754_zero true => true | _ => false end.

(** [a === b], [a !== b], [a < b], [a <= b] on numbers. *)
Definition strict_eq (a b : number) : bool := SFeqb a b.
Definition strict_neq (a b : number) : bool := negb (strict_eq a b).
Definition lt (a b : number) : bool := SFltb a b.
Definition le (a b : number) : bool := SFleb a b.

(** ToBoolean on a number: [+0], [-0] and [NaN] are falsy. *)
Definition truthy (x : number) : bool :=
  match x with
  | S754_zero _ | S754_nan => false
  | _ => true
  end.

(** [Math.max(...args)]: starting from [-Infinity], a NaN argument makes the
    result NaN, a greater argument replaces the running value, and [+0]
    replaces [-0]. *)
Definition max_step (highest x : number) : number :=
  if (is_pos_zero x && is_neg_zero highest) || lt highest x then x else highest.

Fixpoint max_from (highest : number) (args : list number) : number :=
  match args with
  | [] => highest
  | x :: rest => if isNaN x then NaN else max_from (max_step highest x) rest
  end.

Definition Math_max (args : list number) : number := max_from neg_infinity args.

(** [Math.min(...args)]: dually from [+Infinity], [-0] replaces [+0]. *)
Definition min_step (lowest x : number) : number :=
  if (is_neg_zero x && is_pos_zero lowest) || lt x lowest then x else lowest.

Fixpoint min_from (lowest : number) (args : list number) : number :=
  match args with
  | [] => lowest
  | x :: rest => if isNaN x then NaN else min_from (min_step lowest x) rest
  end.

Definition Math_min (args : list number) : number := min_from pos_infinity args.

End Num.

Import Num.

(** ** Values of the attribute types *)

(** [string | undefined]; [None] is [undefined]. *)
Definition Paint := option string.

Definition paint_strict_eq (a b : Paint) : bool :=
  match a, b with
  | None, None => true
  | Some x, Some y => String.eqb x y
  | _, _ => false
  end.

(** ToBoolean on [string | undefined]: [undefined] and the empty string are
    falsy. *)
Definition paint_truthy (p : Paint) : bool :=
  match p with
  | None => false
  | Some s => negb (String.eqb s "")
  end.

(** [type ShapeLineCap = null | 'round' | 'square'], null is for 'butt'. *)
Inductive ShapeLineCap := CapNull | CapRound | CapSquare.

(** [type ShapeLineJoin = null | 'round' | 'bevel'], null is for 'miter'. *)
Inductive ShapeLineJoin := JoinNull | JoinRound | JoinBevel.

Definition lineCap_strict_eq (a b : ShapeLineCap) : bool :=
  match a, b with
  | CapNull, CapNull | CapRound, CapRound | CapSquare, CapSquare => true
  | _, _ => false
  end.

Definition lineJoin_strict_eq (a b : ShapeLineJoin) : bool :=
  match a, b with
  | JoinNull, JoinNull | JoinRound, JoinRound | JoinBevel, JoinBevel => true
  | _, _ => false
  end.

Definition lineCap_truthy (c : ShapeLineCap) : bool :=
  match c with CapNull => false | _ => true end.

Definition lineJoin_truthy (j : ShapeLineJoin) : bool :=
  match j with JoinNull => false | _ => true end.

(** Arrays and drop shadows are objects: an attribute holds a reference, and
    two references are [===] exactly when they are the same object. *)
Definition ref := nat.

(** [T | undefined] for an object type [T]. *)
Definition ref_strict_eq (a b : option ref) : bool :=
  match a, b with
  | None, None => true
  | Some x, Some y => Nat.eqb x y
  | _, _ => false
  end.

(** The part of [DropShadow] that [Shape] reads. *)
Record Offset := { x : number; y : number }.
Record DropShadow := { color : string; offset : Offset; blur : number }.

(** The objects the references point to.  No operation of [Shape] writes to
    them. *)
Record Heap := {
  arrays : ref -> list number;
  shadows : ref -> DropShadow
}.

(** [a[i]] on a [number[]]: [undefined] past the end. *)
Definition index (a : list number) (i : nat) : option number := nth_error a i.

(** [a !== b] on [number | undefined]. *)
Definition elem_strict_neq (a b : option number) : bool :=
  match a, b with
  | Some u, Some v => strict_neq u v
  | None, None => false
  | _, _ => true
  end.

(** ** The shape instance *)

Record Shape := {
  _fill : Paint;
  _stroke : Paint;
  _strokeWidth : number;
  _lineDash : option ref;
  _lineDashOffset : number;
  _lineCap : ShapeLineCap;
  _lineJoin : ShapeLineJoin;
  _opacity : number;
  _shadow : option ref;
  dirty : bool
}.

(** Field assignments [this._f = value] and [this.dirty = value]. *)
Definition put_fill (v : Paint) (s : Shape) : Shape :=
  {| _fill := v; _stroke := _stroke s; _strokeWidth := _strokeWidth s;
     _lineDash := _lineDash s; _lineDashOffset := _lineDashOffset s;
     _lineCap := _lineCap s; _lineJoin := _lineJoin s; _opacity := _opacity s;
     _shadow := _shadow s; dirty := dirty s |}.

Definition put_stroke (v : Paint) (s : Shape) : Shape :=
  {| _fill := _fill s; _stroke := v; _strokeWidth := _strokeWidth s;
     _lineDash := _lineDash s; _lineDashOffset := _lineDashOffset s;
     _lineCap := _lineCap s; _lineJoin := _lineJoin s; _opacity := _opacity s;
     _shadow := _shadow s; dirty := dirty s |}.

Definition put_strokeWidth (v : number) (s : Shape) : Shape :=
  {| _fill := _fill s; _stroke := _stroke s; _strokeWidth := v;
     _lineDash := _lineDash s; _lineDashOffset := _lineDashOffset s;
     _lineCap := _lineCap s; _lineJoin := _lineJoin s; _opacity := _opacity s;
     _shadow := _shadow s; dirty := dirty s |}.

Definition put_lineDash (v : option ref) (s : Shape) : Shape :=
  {| _fill := _fill s; _stroke := _stroke s; _strokeWidth := _strokeWidth s;
     _lineDash := v; _lineDashOffset := _lineDashOffset s;
     _lineCap := _lineCap s; _lineJoin := _lineJoin s; _opacity := _opacity s;
     _shadow := _shadow s; dirty := dirty s |}.

Definition put_lineDashOffset (v : number) (s : Shape) : Shape :=
  {| _fill := _fill s; _stroke := _stroke s; _strokeWidth := _strokeWidth s;
     _lineDash := _lineDash s; _lineDashOffset := v;
     _lineCap := _lineCap s; _lineJoin := _lineJoin s; _opacity := _opacity s;
     _shadow := _shadow s; dirty := dirty s |}.

Definition put_lineCap (v : ShapeLineCap) (s : Shape) : Shape :=
  {| _fill := _fill s; _stroke := _stroke s; _strokeWidth := _strokeWidth s;
     _lineDash := _lineDash s; _lineDashOffset := _lineDashOffset s;
     _lineCap := v; _lineJoin := _lineJoin s; _opacity := _opacity s;
     _shadow := _shadow s; dirty := dirty s |}.

Definition put_lineJoin (v : ShapeLineJoin) (s : Shape) : Shape :=
  {| _fill := _fill s; _stroke := _stroke s; _strokeWidth := _strokeWidth s;
     _lineDash := _lineDash s; _lineDashOffset := _lineDashOffset s;
     _lineCap := _lineCap s; _lineJoin := v; _opacity := _opacity s;
     _shadow := _shadow s; dirty := dirty s |}.

Definition put_opacity (v : number) (s : Shape) : Shape :=
  {| _fill := _fill s; _stroke := _stroke s; _strokeWidth := _strokeWidth s;
     _lineDash := _lineDash s; _lineDashOffset := _lineDashOffset s;
     _lineCap := _lineCap s; _lineJoin := _lineJoin s; _opacity := v;
     _shadow := _shadow s; dirty := dirty s |}.

Definition put_shadow (v : option ref) (s : Shape) : Shape :=
  {| _fill := _fill s; _stroke := _stroke s; _strokeWidth := _strokeWidth s;
     _lineDash := _lineDash s; _lineDashOffset := _lineDashOffset s;
     _lineCap := _lineCap s; _lineJoin := _lineJoin s; _opacity := _opacity s;
     _shadow := v; dirty := dirty s |}.

Definition put_dirty (v : bool) (s : Shape) : Shape :=
  {| _fill := _fill s; _stroke := _stroke s; _strokeWidth := _strokeWidth s;
     _lineDash := _lineDash s; _lineDashOffset := _lineDashOffset s;
     _lineCap := _lineCap s; _lineJoin := _lineJoin s; _opacity := _opacity s;
     _shadow := _shadow s; dirty := v |}.

(** ** Accessors *)

Definition fill (s : Shape) : Paint := _fill s.
Definition stroke (s : Shape) : Paint := _stroke s.
Definition strokeWidth (s : Shape) : number := _strokeWidth s.
Definition lineDash (s : Shape) : option ref := _lineDash s.
Definition lineDashOffset (s : Shape) : number := _lineDashOffset s.
Definition lineCap (s : Shape) : ShapeLineCap := _lineCap s.
Definition lineJoin (s : Shape) : ShapeLineJoin := _lineJoin s.
Definition opacity (s : Shape) : number := _opacity s.
Definition shadow (s : Shape) : option ref := _shadow s.

Definition set_fill (value : Paint) (s : Shape) : Shape :=
  if negb (paint_strict_eq (_fill s) value)
  then put_dirty true (put_fill value s)
  else s.

Definition set_stroke (value : Paint) (s : Shape) : Shape :=
  if negb (paint_strict_eq (_stroke s) value)
  then put_dirty true (put_stroke value s)
  else s.

Definition set_strokeWidth (value : number) (s : Shape) : Shape :=
  if strict_neq (_strokeWidth s) value
  then put_dirty true (put_strokeWidth value s)
  else s.

(** The comparison loop of the [lineDash] setter, from index [i] with [k]
    iterations left: [false] as soon as two elements differ ([break]), [true]
    when the loop runs to its end. *)
Fixpoint identical_from (oldValue value : list number) (i k : nat) : bool :=
  match k with
  | O => true
  | S k' =>
      if elem_strict_neq (index oldValue i) (index value i) then false
      else identical_from oldValue value (S i) k'
  end.

Definition set_lineDash (h : Heap) (value : option ref) (s : Shape) : Shape :=
  let oldValue := _lineDash s in
  if negb (ref_strict_eq oldValue value) then
    let store := put_dirty true (put_lineDash value s) in
    match oldValue, value with
    | Some o, Some v =>
        if Nat.eqb (List.length (arrays h o)) (List.length (arrays h v)) then
          let n := List.length (arrays h v) in
          if identical_from (arrays h o) (arrays h v) 0 n then s else store
        else store
    | _, _ => store
    end
  else s.

Definition set_lineDashOffset (value : number) (s : Shape) : Shape :=
  if strict_neq (_lineDashOffset s) value
  then put_dirty true (put_lineDashOffset value s)
  else s.

Definition set_lineCap (value : ShapeLineCap) (s : Shape) : Shape :=
  if negb (lineCap_strict_eq (_lineCap s) value)
  then put_dirty true (put_lineCap value s)
  else s.

Definition set_lineJoin (value : ShapeLineJoin) (s : Shape) : Shape :=
  if negb (lineJoin_strict_eq (_lineJoin s) value)
  then put_dirty true (put_lineJoin value s)
  else s.

Definition set_opacity (value : number) (s : Shape) : Shape :=
  let value := Math_min [one; Math_max [zero; value]] in
  if strict_neq (_opacity s) value
  then put_dirty true (put_opacity value s)
  else s.

Definition set_shadow (value : option ref) (s : Shape) : Shape :=
  if negb (ref_strict_eq (_shadow s) value)
  then put_dirty true (put_shadow value s)
  else s.

(** ** Attributes by name

    The reset operations address the attributes dynamically,
    [this[key] = styles[key]].  [Property] is the set of names [Shape]
    declares defaults for, and a [Style] is one entry of a defaults object: a
    name together with a value of that attribute's type. *)

Inductive Property :=
| P_fill | P_stroke | P_strokeWidth | P_lineDash | P_lineDashOffset
| P_lineCap | P_lineJoin | P_opacity | P_shadow.

Inductive Style :=
| Fill (v : Paint)
| Stroke (v : Paint)
| StrokeWidth (v : number)
| LineDash (v : option ref)
| LineDashOffset (v : number)
| LineCap (v : ShapeLineCap)
| LineJoin (v : ShapeLineJoin)
| Opacity (v : number)
| Shadow (v : option ref).

Definition property_of (e : Style) : Property :=
  match e with
  | Fill _ => P_fill
  | Stroke _ => P_stroke
  | StrokeWidth _ => P_strokeWidth
  | LineDash _ => P_lineDash
  | LineDashOffset _ => P_lineDashOffset
  | LineCap _ => P_lineCap
  | LineJoin _ => P_lineJoin
  | Opacity _ => P_opacity
  | Shadow _ => P_shadow
  end.

Definition Property_eqb (a b : Property) : bool :=
  match a, b with
  | P_fill, P_fill | P_stroke, P_stroke | P_strokeWidth, P_strokeWidth
  | P_lineDash, P_lineDash | P_lineDashOffset, P_lineDashOffset
  | P_lineCap, P_lineCap | P_lineJoin, P_lineJoin | P_opacity, P_opacity
  | P_shadow, P_shadow => true
  | _, _ => false
  end.

(** [this[key]]: the getter of that name. *)
Definition read (key : Property) (this : Shape) : Style :=
  match key with
  | P_fill => Fill (fill this)
  | P_stroke => Stroke (stroke this)
  | P_strokeWidth => StrokeWidth (strokeWidth this)
  | P_lineDash => LineDash (lineDash this)
  | P_lineDashOffset => LineDashOffset (lineDashOffset this)
  | P_lineCap => LineCap (lineCap this)
  | P_lineJoin => LineJoin (lineJoin this)
  | P_opacity => Opacity (opacity this)
  | P_shadow => Shadow (shadow this)
  end.

(** [this[key] = value]: the setter of that name. *)
Definition assign (h : Heap) (e : Style) (this : Shape) : Shape :=
  match e with
  | Fill v => set_fill v this
  | Stroke v => set_stroke v this
  | StrokeWidth v => set_strokeWidth v this
  | LineDash v => set_lineDash h v this
  | LineDashOffset v => set_lineDashOffset v this
  | LineCap v => set_lineCap v this
  | LineJoin v => set_lineJoin v this
  | Opacity v => set_opacity v this
  | Shadow v => set_shadow v this
  end.

(** ** Objects of default styles

    A [defaultStyles] object has its own properties, in insertion order (no
    name twice), and a prototype; the chain ends in [Object.prototype], which
    has no property with the name of a style. *)

Inductive StyleObject :=
| ObjectPrototype
| Obj (own : list Style) (proto : StyleObject).

(** Modelled from the spec: [chainObjects] of [util/object] is not part of this
    file.  It builds the defaults table of a variant by layering the variant's
    own declared defaults on top of its ancestor's table: a new object whose
    own properties are those of [child] and whose prototype is [parent]. *)
Definition chainObjects (parent : StyleObject) (child : list Style) : StyleObject :=
  Obj child parent.

(** The empty object literal. *)
Definition empty_object : StyleObject := Obj [] ObjectPrototype.

Definition own_get (own : list Style) (key : Property) : option Style :=
  find (fun e => Property_eqb (property_of e) key) own.

Definition own_has (own : list Style) (key : Property) : bool :=
  existsb (fun e => Property_eqb (property_of e) key) own.

Definition hasOwnProperty (o : StyleObject) (key : Property) : bool :=
  match o with
  | ObjectPrototype => false
  | Obj own _ => own_has own key
  end.

Definition getOwnPropertyNames (o : StyleObject) : list Property :=
  match o with
  | ObjectPrototype => []
  | Obj own _ => map property_of own
  end.

(** [Object.getPrototypeOf(o)]; [None] is [null]. *)
Definition getPrototypeOf (o : StyleObject) : option StyleObject :=
  match o with
  | ObjectPrototype => None
  | Obj _ proto => Some proto
  end.

(** [o[key]]: the own property, else the prototype's; [None] when no object
    of the chain has it. *)
Fixpoint get (o : StyleObject) (key : Property) : option Style :=
  match o with
  | ObjectPrototype => None
  | Obj own proto =>
      match own_get own key with
      | Some e => Some e
      | None => get proto key
      end
  end.

Definition mem (key : Property) (keys : list Property) : bool :=
  existsb (Property_eqb key) keys.

(** The names [for (const property in o)] visits: the own ones, then those of
    the prototype chain that no nearer object has. *)
Fixpoint for_in (o : StyleObject) : list Property :=
  match o with
  | ObjectPrototype => []
  | Obj own proto =>
      map property_of own
        ++ filter (fun key => negb (own_has own key)) (for_in proto)
  end.

(** [Shape.defaultStyles]. *)
Definition defaultStyles : StyleObject :=
  chainObjects empty_object
    [ Fill (Some "black");
      Stroke None;
      StrokeWidth zero;
      LineDash None;
      LineDashOffset zero;
      LineCap CapNull;
      LineJoin JoinNull;
      Opacity one;
      Shadow None ].

(** Modelled from the spec: the node base type, which owns [dirty], is not part
    of this file; the flag is created false at construction.  The style fields
    are initialised from [Shape.defaultStyles]. *)
Definition new_Shape : Shape :=
  {| _fill := Some "black";
     _stroke := None;
     _strokeWidth := zero;
     _lineDash := None;
     _lineDashOffset := zero;
     _lineCap := CapNull;
     _lineJoin := JoinNull;
     _opacity := one;
     _shadow := None;
     dirty := false |}.

(** ** Reset operations

    [styles] is [this.constructor.defaultStyles], the defaults object of the
    instance's variant. *)

(** [this[key] = styles[key]].  Every name the loops below pass is a property
    of [styles], so the lookup finds a value ([get_hasOwnProperty],
    [get_for_in]). *)
Definition assign_from (h : Heap) (styles : StyleObject) (key : Property)
    (this : Shape) : Shape :=
  match get styles key with
  | Some e => assign h e this
  | None => this
  end.

Definition restoreOwnStyles (h : Heap) (styles : StyleObject) (this : Shape) : Shape :=
  let keys := getOwnPropertyNames styles in
  fold_left (fun this key => assign_from h styles key this) keys this.

Definition restoreAllStyles (h : Heap) (styles : StyleObject) (this : Shape) : Shape :=
  fold_left (fun this property => assign_from h styles property this)
    (for_in styles) this.

(** [Object.prototype] has no enumerable property, so the loop body, which
    reads [protoStyles], runs only when [styles] has a prototype. *)
Definition restoreOverriddenStyles (h : Heap) (styles : StyleObject) (this : Shape)
    : Shape :=
  match getPrototypeOf styles with
  | Some protoStyles =>
      fold_left
        (fun this property =>
           if hasOwnProperty styles property && hasOwnProperty protoStyles property
           then assign_from h styles property this
           else this)
        (for_in styles) this
  | None => this
  end.

(** ** Applying the attributes to a rendering context

    The context is a sink of property assignments and calls;
    [applyContextAttributes] is modelled by the sequence of writes it
    performs, in order. *)

Module Ctx.
Inductive Write :=
| fillStyle (v : string)
| strokeStyle (v : string)
| lineWidth (v : number)
| setLineDash (segments : list number)
| lineDashOffset (v : number)
| lineCap (v : ShapeLineCap)
| lineJoin (v : ShapeLineJoin)
| globalAlpha (v : number)
| shadowColor (v : string)
| shadowOffsetX (v : number)
| shadowOffsetY (v : number)
| shadowBlur (v : number).

(** The writes that configure the outline. *)
Definition stroke_dependent (w : Write) : bool :=
  match w with
  | strokeStyle _ | lineWidth _ | setLineDash _ | lineDashOffset _
  | lineCap _ | lineJoin _ => true
  | _ => false
  end.

Definition is_fillStyle (w : Write) : bool :=
  match w with fillStyle _ => true | _ => false end.

Definition is_lineWidth (w : Write) : bool :=
  match w with lineWidth _ => true | _ => false end.
End Ctx.

(** [if (p) { body }] for [p : string | undefined]; in the body [p] is a
    string. *)
Definition if_paint (p : Paint) (body : string -> list Ctx.Write) : list Ctx.Write :=
  match p with
  | Some v => if paint_truthy p then body v else []
  | None => []
  end.

Definition if_ref (r : option ref) (body : ref -> list Ctx.Write) : list Ctx.Write :=
  match r with
  | Some v => body v
  | None => []
  end.

Definition when (b : bool) (body : list Ctx.Write) : list Ctx.Write :=
  if b then body else [].

Definition applyContextAttributes (h : Heap) (this : Shape) : list Ctx.Write :=
  if_paint (fill this) (fun v => [Ctx.fillStyle v])
  ++ if_paint (stroke this) (fun v =>
       [Ctx.strokeStyle v; Ctx.lineWidth (strokeWidth this)]
       ++ if_ref (lineDash this) (fun r => [Ctx.setLineDash (arrays h r)])
       ++ when (truthy (lineDashOffset this))
            [Ctx.lineDashOffset (lineDashOffset this)]
       ++ when (lineCap_truthy (lineCap this)) [Ctx.lineCap (lineCap this)]
       ++ when (lineJoin_truthy (lineJoin this)) [Ctx.lineJoin (lineJoin this)])
  ++ when (lt (opacity this) one) [Ctx.globalAlpha (opacity this)]
  ++ if_ref (shadow this) (fun r =>
       let shadow := shadows h r in
       [Ctx.shadowColor (color shadow);
        Ctx.shadowOffsetX (x (offset shadow));
        Ctx.shadowOffsetY (y (offset shadow));
        Ctx.shadowBlur (blur shadow)]).

(** ** Hit testing

    [isPointInPath] and [isPointInStroke] are abstract: each concrete variant,
    with its own geometry, provides them. *)

Class ShapeVariant (T : Type) := {
  isPointInPath : T -> number -> number -> bool;
  isPointInStroke : T -> number -> number -> bool
}.

Definition isPointInNode {T : Type} `{ShapeVariant T} (this : T) (x y : number) : bool :=
  isPointInPath this x y.

(** ** The vocabulary of the specification *)

(** Clamping to [[0,1]], in the specification's words: a value below the
    range becomes 0, a value above it becomes 1, any other is kept. *)
Definition clamp01 (value : number) : number :=
  if lt value zero then zero
  else if lt one value then one
  else value.

(** The deep equality rule of [lineDash]: both present, of equal length, and
    equal element by element. *)
Definition pairwise_equal (a b : list number) : bool :=
  Nat.eqb (List.length a) (List.length b)
  && forallb (fun p => strict_eq (fst p) (snd p)) (combine a b).

(** The [lineDash] setter's notion of an unchanged value: the same value (the
    same sequence instance, or unset on both sides), or two sequences that
    are deeply equal. *)
Definition lineDash_unchanged (h : Heap) (old new : option ref) : bool :=
  ref_strict_eq old new
  || match old, new with
     | Some o, Some v => pairwise_equal (arrays h o) (arrays h v)
     | _, _ => false
     end.

(** The equality rule of each attribute, between the stored value and the
    value passed to the setter: strict equality on scalars and references,
    the clamped input for [opacity], deep equality for [lineDash]. *)
Definition style_equal (h : Heap) (current new : Style) : bool :=
  match current, new with
  | Fill a, Fill b => paint_strict_eq a b
  | Stroke a, Stroke b => paint_strict_eq a b
  | StrokeWidth a, StrokeWidth b => strict_eq a b
  | LineDash a, LineDash b => lineDash_unchanged h a b
  | LineDashOffset a, LineDashOffset b => strict_eq a b
  | LineCap a, LineCap b => lineCap_strict_eq a b
  | LineJoin a, LineJoin b => lineJoin_strict_eq a b
  | Opacity a, Opacity b => strict_eq a (Math_min [one; Math_max [zero; b]])
  | Shadow a, Shadow b => ref_strict_eq a b
  | _, _ => false
  end.

(** What a setter stores when it stores: the value itself, clamped for
    [opacity]. *)
Definition stored (e : Style) : Style :=
  match e with
  | Opacity v => Opacity (Math_min [one; Math_max [zero; v]])
  | _ => e
  end.

(** The field assignment of an attribute by name. *)
Definition put (e : Style) (this : Shape) : Shape :=
  match e with
  | Fill v => put_fill v this
  | Stroke v => put_stroke v this
  | StrokeWidth v => put_strokeWidth v this
  | LineDash v => put_lineDash v this
  | LineDashOffset v => put_lineDashOffset v this
  | LineCap v => put_lineCap v this
  | LineJoin v => put_lineJoin v this
  | Opacity v => put_opacity v this
  | Shadow v => put_shadow v this
  end.

(** The tables of an object's chain, nearest first. *)
Fixpoint tables (o : StyleObject) : list (list Style) :=
  match o with
  | ObjectPrototype => []
  | Obj own proto => own :: tables proto
  end.

(** The table a variant declares directly. *)
Definition own_table (o : StyleObject) : list Style :=
  match tables o with
  | own :: _ => own
  | [] => []
  end.

(** [ownKeys(variant)]: the names the variant declares directly. *)
Definition ownKeys (o : StyleObject) : list Property :=
  map property_of (own_table o).

(** An attribute holds the default [d] once [d] has gone through its setter:
    the stored value is [d] (clamped for [opacity]), or one the setter takes
    for equal to [d]. *)
Definition holds_default (h : Heap) (d : Style) (this : Shape) : Prop :=
  read (property_of d) this = stored d
  \/ style_equal h (read (property_of d) this) d = true.

(** [isOverride(variant, name)]: [name] is in the variant's own table and in
    the table of some ancestor. *)
Definition isOverride (o : StyleObject) (name : Property) : bool :=
  match tables o with
  | own :: ancestors =>
      own_has own name && existsb (fun t => own_has t name) ancestors
  | [] => false
  end.

(** [resolve(variant)]: the merge of every table from the root to the
    variant, the most derived entry winning on a name collision. *)
Fixpoint resolve (o : StyleObject) : list Style :=
  match o with
  | ObjectPrototype => []
  | Obj own proto =>
      own ++ filter (fun e => negb (own_has own (property_of e))) (resolve proto)
  end.

(** [name] is in the variant's own table and in the own table of its direct
    parent. *)
Definition overrides_parent (o : StyleObject) (name : Property) : bool :=
  match tables o with
  | own :: parent :: _ => own_has own name && own_has parent name
  | _ => false
  end.

(** ** Sample data *)

Definition two : number := Eval cbv in of_Z 2.
Definition five : number := Eval cbv in of_Z 5.
Definition seven : number := Eval cbv in of_Z 7.
(** The literals [1.5] and [-0.2]. *)
Definition one_and_a_half : number := Eval cbv in of_decimal 15 1.
Definition minus_a_fifth : number := Eval cbv in of_decimal (-2) 1.

(** Three dash arrays, [[1,2,3]] twice (two instances) and [[1,2,4]], an
    array holding NaN, and one drop shadow. *)
Definition sample_heap : Heap :=
  {| arrays := fun r =>
       match r with
       | 1 => [of_Z 1; of_Z 2; of_Z 3]
       | 2 => [of_Z 1; of_Z 2; of_Z 3]
       | 3 => [of_Z 1; of_Z 2; of_Z 4]
       | 4 => [NaN]
       | _ => []
       end;
     shadows := fun _ =>
       {| color := "gray"; offset := {| x := two; y := two |}; blur := five |} |}.

(** A subclass that declares only [{strokeWidth: 2}]. *)
Definition thickStyles : StyleObject := chainObjects defaultStyles [StrokeWidth two].

(** A subclass that redeclares [fill]. *)
Definition redStyles : StyleObject := chainObjects defaultStyles [Fill (Some "red")].

(** A subclass of the first one that redeclares [fill]: its direct parent
    inherits [fill] from [Shape] without declaring it. *)
Definition thickRedStyles : StyleObject := chainObjects thickStyles [Fill (Some "red")].

(** An instance with custom styling. *)
Definition custom : Shape :=
  set_strokeWidth seven (set_fill (Some "blue") new_Shape).

(** A sample variant for hit testing: the unit square, outline excluded from
    the stroke test for simplicity. *)
Record UnitSquare := { style : Shape }.

#[export] Instance UnitSquare_variant : ShapeVariant UnitSquare := {
  isPointInPath := fun _ px py => le zero px && le px one && le zero py && le py one;
  isPointInStroke := fun _ _ _ => false
}.

(** ** Further vocabulary *)

(** A stored opacity is acceptable when it is NaN or lies in [[0,1]]. *)
Definition opacity_ok (o : number) : bool :=
  isNaN o || (le zero o && le o one).

(** The attributes compared by identity, for which the setter stores exactly
    what it is given: the paints, the cap, the join and the shadow. *)
Definition identity_compared (e : Style) : bool :=
  match e with
  | Fill _ | Stroke _ | LineCap _ | LineJoin _ | Shadow _ => true
  | _ => false
  end.

(** The value of a style equals itself under [===]: it is no NaN. *)
Definition self_equal (e : Style) : bool :=
  match e with
  | StrokeWidth v | LineDashOffset v | Opacity v => negb (isNaN v)
  | _ => true
  end.

(** The position of a write in the fixed order of [applyContextAttributes]. *)
Definition write_rank (w : Ctx.Write) : nat :=
  match w with
  | Ctx.fillStyle _ => 0
  | Ctx.strokeStyle _ => 1
  | Ctx.lineWidth _ => 2
  | Ctx.setLineDash _ => 3
  | Ctx.lineDashOffset _ => 4
  | Ctx.lineCap _ => 5
  | Ctx.lineJoin _ => 6
  | Ctx.globalAlpha _ => 7
  | Ctx.shadowColor _ => 8
  | Ctx.shadowOffsetX _ => 9
  | Ctx.shadowOffsetY _ => 10
  | Ctx.shadowBlur _ => 11
  end.

Fixpoint increasing (l : list nat) : bool :=
  match l with
  | a :: (b :: _) as rest => Nat.ltb a b && increasing rest
  | _ => true
  end.

Definition is_globalAlpha (w : Ctx.Write) : bool :=
  match w with Ctx.globalAlpha _ => true | _ => false end.

Definition is_shadow_write (w : Ctx.Write) : bool :=
  match w with
  | Ctx.shadowColor _ | Ctx.shadowOffsetX _ | Ctx.shadowOffsetY _
  | Ctx.shadowBlur _ => true
  | _ => false
  end.

(** A write that carries a value the guards of [applyContextAttributes] let
    through: a non-empty paint, a dash offset other than 0 and NaN, a cap or
    join other than null, an alpha below 1. *)
Definition guarded_value (w : Ctx.Write) : bool :=
  match w with
  | Ctx.fillStyle c => paint_truthy (Some c)
  | Ctx.strokeStyle c => paint_truthy (Some c)
  | Ctx.lineDashOffset v => truthy v
  | Ctx.lineCap v => lineCap_truthy v
  | Ctx.lineJoin v => lineJoin_truthy v
  | Ctx.globalAlpha v => lt v one
  | _ => true
  end.

(** The defaults object of a variant of [Shape], from the tables declared
    along its class chain, the most derived first: each is chained onto the
    defaults of its superclass, down to [Shape.defaultStyles]. *)
Fixpoint derive (declared : list (list Style)) : StyleObject :=
  match declared with
  | [] => defaultStyles
  | own :: rest => chainObjects (derive rest) own
  end.

(** * Properties *)

(** ** Numbers *)

Ltac unfold_compare :=
  unfold strict_eq, strict_neq, lt, le, SFeqb, SFltb, SFleb;
  cbv beta iota delta [SFcompare one zero pos_zero].

Lemma strict_eq_refl (a : number) : isNaN a = false -> strict_eq a a = true.
Proof.
  destruct a as [s|s| |s m e]; cbn [isNaN]; try discriminate; intros _;
    unfold_compare.
  - reflexivity.
  - destruct s; reflexivity.
  - rewrite Z.compare_refl, Pos.compare_cont_refl. destruct s; reflexivity.
Qed.

Lemma strict_eq_NaN_r (a : number) : strict_eq a NaN = false.
Proof. destruct a; reflexivity. Qed.

Lemma lt_le (a b : number) : lt a b = true -> le a b = true.
Proof.
  unfold lt, le, SFltb, SFleb.
  destruct (SFcompare a b) as [[ | | ]|]; intros E; try discriminate; reflexivity.
Qed.

(** The clamping expression of the [opacity] setter, by cases. *)
Lemma clamp_cases (v : number) :
  Math_min [one; Math_max [zero; v]] =
    if isNaN v then NaN
    else if lt zero v then (if lt v one then v else one)
    else zero.
Proof.
  unfold Math_max, Math_min. simpl max_from.
  destruct (isNaN v) eqn:Hnan; [reflexivity|].
  unfold max_step. simpl is_neg_zero. rewrite andb_false_r. simpl orb.
  change (lt (S754_infinity true) zero) with true. cbv iota.
  destruct (lt zero v) eqn:Hpos.
  - simpl min_from. rewrite Hnan.
    change (min_step pos_infinity one) with one.
    unfold min_step. simpl is_pos_zero. rewrite andb_false_r. reflexivity.
  - reflexivity.
Qed.

Lemma compare_cont_Eq_eq (p q : positive) : Pos.compare_cont Eq p q = Eq -> p = q.
Proof.
  rewrite Pos.compare_cont_spec. intros H. apply Pos.compare_eq.
  destruct (Pos.compare p q); [reflexivity | discriminate H | discriminate H].
Qed.

Lemma finite_one_cases (m : positive) (e : Z) :
  let v := S754_finite false m e in
  SFcompare v one = Some Lt /\ SFcompare one v = Some Gt
  \/ SFcompare v one = Some Gt /\ SFcompare one v = Some Lt
  \/ v = one.
Proof.
  cbv zeta. cbv beta iota delta [SFcompare one].
  pose proof (Z.compare_antisym e (-52)) as Hz.
  pose proof (Pos.compare_cont_antisym m 4503599627370496 Eq) as Hp.
  change (CompOpp Eq) with Eq in Hp.
  destruct (Z.compare_spec e (-52)) as [He|He|He].
  - rewrite Hz. cbv beta iota delta [CompOpp]. rewrite <- Hp.
    destruct (Pos.compare_cont Eq m 4503599627370496) eqn:Hm.
    + right; right. apply compare_cont_Eq_eq in Hm. rewrite Hm, He. reflexivity.
    + left. split; reflexivity.
    + right; left. split; reflexivity.
  - rewrite Hz. left. split; reflexivity.
  - rewrite Hz. right; left. split; reflexivity.
Qed.

(** Every number other than NaN is below, above or equal to 1. *)
Lemma one_cases (v : number) :
  isNaN v = false ->
  (lt v one = true /\ lt one v = false)
  \/ (lt one v = true /\ lt v one = false)
  \/ v = one.
Proof.
  destruct v as [s|s| |s m e]; cbn [isNaN]; try discriminate; intros _.
  - left. split; reflexivity.
  - destruct s; [left | right; left]; split; reflexivity.
  - destruct s.
    + left. split; reflexivity.
    + unfold lt, SFltb.
      destruct (finite_one_cases m e) as [[H1 H2]|[[H1 H2]|H]].
      * left. rewrite H1, H2. split; reflexivity.
      * right; left. rewrite H1, H2. split; reflexivity.
      * right; right. exact H.
Qed.

(** Every number other than NaN is below 0, above 0, or a zero. *)
Lemma zero_cases (v : number) :
  isNaN v = false ->
  (lt v zero = true /\ lt zero v = false /\ lt one v = false)
  \/ (lt zero v = true /\ lt v zero = false)
  \/ (strict_eq zero v = true /\ lt v zero = false /\ lt zero v = false
      /\ lt one v = false).
Proof.
  destruct v as [s|s| |s m e]; cbn [isNaN]; try discriminate; intros _.
  - right; right. repeat split; reflexivity.
  - destruct s; [left | right; left]; repeat split; reflexivity.
  - destruct s; [left | right; left]; repeat split; reflexivity.
Qed.

Lemma lt_one_one : lt one one = false.
Proof. vm_compute. reflexivity. Qed.

(** For a number other than NaN the clamped value lies in [[0,1]] and equals
    [clamp01] of the input. *)
Lemma clamp_range (v : number) :
  isNaN v = false ->
  let c := Math_min [one; Math_max [zero; v]] in
  le zero c = true /\ le c one = true /\ strict_eq c (clamp01 v) = true.
Proof.
  intros Hnan. cbv zeta. rewrite clamp_cases, Hnan. unfold clamp01.
  destruct (zero_cases v Hnan) as [(H1 & H2 & H3)|[(H1 & H2)|(H0 & H1 & H2 & H3)]].
  - rewrite H1, H2. repeat split; vm_compute; reflexivity.
  - rewrite H1, H2.
    destruct (one_cases v Hnan) as [(G1 & G2)|[(G1 & G2)|G]].
    + rewrite G1, G2. repeat split; auto using lt_le, strict_eq_refl.
    + rewrite G1, G2. repeat split; vm_compute; reflexivity.
    + subst v. rewrite lt_one_one. repeat split; vm_compute; reflexivity.
  - rewrite H1, H2, H3. repeat split; try (vm_compute; reflexivity). exact H0.
Qed.

(** ** Setters *)

Lemma Property_eqb_eq (a b : Property) : Property_eqb a b = true <-> a = b.
Proof. destruct a, b; simpl; split; intros H; try reflexivity; discriminate H. Qed.

Lemma Property_eqb_refl (a : Property) : Property_eqb a a = true.
Proof. destruct a; reflexivity. Qed.

Lemma Property_eqb_sym (a b : Property) : Property_eqb a b = Property_eqb b a.
Proof. destruct a, b; reflexivity. Qed.

Lemma Property_eqb_neq (a b : Property) : a <> b -> Property_eqb a b = false.
Proof.
  intros H. destruct (Property_eqb a b) eqn:E; [|reflexivity].
  apply Property_eqb_eq in E. contradiction.
Qed.

Section Setters.

Variable h : Heap.

(** The comparison loop decides element-wise equality of the two arrays. *)
Lemma identical_from_app (o v pre_o pre_v : list number) :
  List.length pre_o = List.length pre_v ->
  List.length o = List.length v ->
  identical_from (pre_o ++ o) (pre_v ++ v) (List.length pre_o) (List.length v)
  = forallb (fun p => strict_eq (fst p) (snd p)) (combine o v).
Proof.
  revert v pre_o pre_v.
  induction o as [|a o IH]; intros [|b v] pre_o pre_v Hpre Hlen;
    try discriminate Hlen; [reflexivity|].
  cbn [List.length identical_from combine forallb fst snd].
  unfold index.
  rewrite (nth_error_app2 pre_o) by lia.
  rewrite (nth_error_app2 pre_v) by lia.
  replace (List.length pre_o - List.length pre_v) with 0 by lia.
  rewrite Nat.sub_diag.
  cbn [nth_error elem_strict_neq]. unfold strict_neq.
  destruct (strict_eq a b); cbn [negb andb]; [|reflexivity].
  specialize (IH v (pre_o ++ [a]) (pre_v ++ [b])).
  rewrite <- !app_assoc, !length_app in IH. cbn [List.length app] in IH.
  rewrite Nat.add_1_r in IH. apply IH; simpl in *; lia.
Qed.

Lemma identical_from_spec (o v : list number) :
  List.length o = List.length v ->
  identical_from o v 0 (List.length v)
  = forallb (fun p => strict_eq (fst p) (snd p)) (combine o v).
Proof. intros H. exact (identical_from_app o v [] [] eq_refl H). Qed.

Lemma set_lineDash_spec (value : option ref) (s : Shape) :
  set_lineDash h value s =
    if lineDash_unchanged h (lineDash s) value then s
    else put_dirty true (put_lineDash value s).
Proof.
  unfold set_lineDash, lineDash_unchanged, lineDash.
  destruct (ref_strict_eq (_lineDash s) value); cbn [negb orb]; [reflexivity|].
  destruct (_lineDash s) as [o|], value as [v|]; try reflexivity.
  unfold pairwise_equal.
  destruct (Nat.eqb (List.length (arrays h o)) (List.length (arrays h v))) eqn:Hlen;
    cbn [andb]; [|reflexivity].
  apply Nat.eqb_eq in Hlen. rewrite (identical_from_spec _ _ Hlen). reflexivity.
Qed.

(** Every setter is compare, then store and arm. *)
Lemma assign_spec (e : Style) (s : Shape) :
  assign h e s =
    if style_equal h (read (property_of e) s) e then s
    else put_dirty true (put (stored e) s).
Proof.
  destruct e; cbn [assign property_of read style_equal stored put];
    try (unfold set_fill, set_stroke, set_strokeWidth, set_lineDashOffset,
           set_lineCap, set_lineJoin, set_opacity, set_shadow, strict_neq,
           fill, stroke, strokeWidth, lineDashOffset, lineCap, lineJoin,
           opacity, shadow;
         match goal with |- context [negb ?b] => destruct b end; reflexivity).
  apply set_lineDash_spec.
Qed.

Lemma read_put_same (e : Style) (b : bool) (s : Shape) :
  read (property_of e) (put_dirty b (put e s)) = e.
Proof. destruct e; reflexivity. Qed.

Lemma read_put_other (k : Property) (e : Style) (b : bool) (s : Shape) :
  k <> property_of e -> read k (put_dirty b (put e s)) = read k s.
Proof. destruct e, k; intros H; try reflexivity; contradiction H; reflexivity. Qed.

Lemma put_put (e : Style) (s : Shape) :
  put_dirty true (put e (put_dirty true (put e s))) = put_dirty true (put e s).
Proof. destruct e; reflexivity. Qed.

Lemma property_of_stored (e : Style) : property_of (stored e) = property_of e.
Proof. destruct e; reflexivity. Qed.

Lemma read_assign_same (e : Style) (s : Shape) :
  read (property_of e) (assign h e s) =
    if style_equal h (read (property_of e) s) e then read (property_of e) s
    else stored e.
Proof.
  rewrite assign_spec.
  destruct (style_equal h (read (property_of e) s) e); [reflexivity|].
  rewrite <- (property_of_stored e). apply read_put_same.
Qed.

Lemma read_assign_other (k : Property) (e : Style) (s : Shape) :
  k <> property_of e -> read k (assign h e s) = read k s.
Proof.
  intros Hk. rewrite assign_spec.
  destruct (style_equal h (read (property_of e) s) e); [reflexivity|].
  apply read_put_other. rewrite property_of_stored. exact Hk.
Qed.

Lemma dirty_assign (e : Style) (s : Shape) :
  dirty (assign h e s)
  = dirty s || negb (style_equal h (read (property_of e) s) e).
Proof.
  rewrite assign_spec.
  destruct (style_equal h (read (property_of e) s) e); cbn [negb].
  - rewrite orb_false_r. reflexivity.
  - rewrite orb_true_r. destruct e; reflexivity.
Qed.

(** Re-assigning the value just assigned changes nothing. *)
Lemma assign_idempotent (e : Style) (s : Shape) :
  assign h e (assign h e s) = assign h e s.
Proof.
  rewrite (assign_spec e s).
  destruct (style_equal h (read (property_of e) s) e) eqn:E.
  - rewrite assign_spec, E. reflexivity.
  - rewrite assign_spec.
    destruct (style_equal h
                (read (property_of e) (put_dirty true (put (stored e) s))) e);
      [reflexivity|].
    apply put_put.
Qed.

Lemma assign_iter (e : Style) (s : Shape) (n : nat) :
  Nat.iter n (assign h e) (assign h e s) = assign h e s.
Proof.
  induction n as [|n IH]; [reflexivity|].
  change (assign h e (Nat.iter n (assign h e) (assign h e s)) = assign h e s).
  rewrite IH. apply assign_idempotent.
Qed.

(** What the setter leaves in the attribute depends on that attribute
    alone. *)
Lemma read_assign_congr (e : Style) (s1 s2 : Shape) :
  read (property_of e) s1 = read (property_of e) s2 ->
  read (property_of e) (assign h e s1) = read (property_of e) (assign h e s2).
Proof. intros H. rewrite !read_assign_same, H. reflexivity. Qed.

Lemma holds_default_assign (d : Style) (s : Shape) :
  holds_default h d (assign h d s).
Proof.
  unfold holds_default. rewrite read_assign_same.
  destruct (style_equal h (read (property_of d) s) d) eqn:E; [right | left].
  - exact E.
  - reflexivity.
Qed.

Lemma holds_default_read (d : Style) (s1 s2 : Shape) :
  read (property_of d) s1 = read (property_of d) s2 ->
  holds_default h d s2 -> holds_default h d s1.
Proof. unfold holds_default. intros ->. exact (fun H => H). Qed.

End Setters.

(** ** Objects of default styles *)

Lemma own_get_property (own : list Style) (k : Property) (e : Style) :
  own_get own k = Some e -> property_of e = k.
Proof.
  unfold own_get. intros H. apply find_some in H.
  apply Property_eqb_eq. exact (proj2 H).
Qed.

Lemma own_get_has (own : list Style) (k : Property) :
  own_has own k = match own_get own k with Some _ => true | None => false end.
Proof.
  unfold own_has, own_get.
  induction own as [|e own IH]; [reflexivity|].
  cbn [existsb find]. destruct (Property_eqb (property_of e) k); [reflexivity|exact IH].
Qed.

Lemma own_get_app (a b : list Style) (k : Property) :
  own_get (a ++ b) k =
    match own_get a k with Some e => Some e | None => own_get b k end.
Proof.
  unfold own_get. induction a as [|e a IH]; [reflexivity|].
  cbn [app find]. destruct (Property_eqb (property_of e) k); [reflexivity|exact IH].
Qed.

Lemma own_get_filter (own l : list Style) (k : Property) :
  own_has own k = false ->
  own_get (filter (fun e => negb (own_has own (property_of e))) l) k = own_get l k.
Proof.
  intros Hk. unfold own_get. induction l as [|e l IH]; [reflexivity|].
  cbn [filter find].
  destruct (Property_eqb (property_of e) k) eqn:E.
  - apply Property_eqb_eq in E. rewrite E, Hk. cbn [negb find].
    rewrite <- E at 1. rewrite Property_eqb_refl. reflexivity.
  - destruct (negb (own_has own (property_of e))); [|exact IH].
    cbn [find]. rewrite E. exact IH.
Qed.

Lemma get_property (o : StyleObject) (k : Property) (e : Style) :
  get o k = Some e -> property_of e = k.
Proof.
  induction o as [|own proto IH]; cbn [get]; [discriminate|].
  destruct (own_get own k) eqn:E; [|exact IH].
  intros H. injection H as <-. exact (own_get_property _ _ _ E).
Qed.

(** Property lookup through the prototype chain reads the resolved table. *)
Lemma get_resolve (o : StyleObject) (k : Property) :
  get o k = own_get (resolve o) k.
Proof.
  induction o as [|own proto IH]; [reflexivity|].
  cbn [get resolve]. rewrite own_get_app.
  destruct (own_get own k) eqn:E; [reflexivity|].
  rewrite own_get_filter, IH; [reflexivity|].
  rewrite own_get_has, E. reflexivity.
Qed.

Lemma mem_app (k : Property) (a b : list Property) :
  mem k (a ++ b) = mem k a || mem k b.
Proof. apply existsb_app. Qed.

Lemma mem_keys (k : Property) (own : list Style) :
  mem k (map property_of own) = own_has own k.
Proof.
  unfold mem, own_has. induction own as [|e own IH]; [reflexivity|].
  cbn [map existsb]. rewrite IH, (Property_eqb_sym k). reflexivity.
Qed.

Lemma mem_filter (f : Property -> bool) (k : Property) (l : list Property) :
  mem k (filter f l) = f k && mem k l.
Proof.
  unfold mem. induction l as [|a l IH]; cbn [filter existsb].
  - rewrite andb_false_r. reflexivity.
  - destruct (Property_eqb k a) eqn:E.
    + apply Property_eqb_eq in E. subst a.
      destruct (f k); cbn [existsb orb andb].
      * rewrite Property_eqb_refl. reflexivity.
      * rewrite IH. reflexivity.
    + destruct (f a); cbn [existsb orb]; rewrite ?E; exact IH.
Qed.

(** [for ... in] visits exactly the names that resolve to a value. *)
Lemma mem_for_in (o : StyleObject) (k : Property) :
  mem k (for_in o) = match get o k with Some _ => true | None => false end.
Proof.
  induction o as [|own proto IH]; [reflexivity|].
  cbn [for_in get]. rewrite mem_app, mem_keys, mem_filter, IH, own_get_has.
  destruct (own_get own k); reflexivity.
Qed.

Lemma for_in_resolve (o : StyleObject) :
  for_in o = map property_of (resolve o).
Proof.
  induction o as [|own proto IH]; [reflexivity|].
  cbn [for_in resolve]. rewrite map_app, IH. f_equal. clear IH.
  induction (resolve proto) as [|e l IHl]; [reflexivity|].
  cbn [map filter]. destruct (negb (own_has own (property_of e)));
    cbn [map]; rewrite IHl; reflexivity.
Qed.

Lemma get_hasOwnProperty (o : StyleObject) (k : Property) :
  hasOwnProperty o k = true -> get o k = own_get (own_table o) k /\ get o k <> None.
Proof.
  destruct o as [|own proto]; cbn [hasOwnProperty get own_table tables];
    [discriminate|].
  rewrite own_get_has. destruct (own_get own k); [|discriminate].
  intros _. split; [reflexivity|discriminate].
Qed.

Lemma mem_ownKeys (o : StyleObject) (k : Property) :
  mem k (ownKeys o) = hasOwnProperty o k.
Proof.
  unfold ownKeys. rewrite mem_keys. destruct o; reflexivity.
Qed.

Lemma getOwnPropertyNames_ownKeys (o : StyleObject) :
  getOwnPropertyNames o = ownKeys o.
Proof. destruct o; reflexivity. Qed.

Lemma overrides_parent_spec (o : StyleObject) (k : Property) :
  overrides_parent o k =
    match getPrototypeOf o with
    | Some protoStyles => hasOwnProperty o k && hasOwnProperty protoStyles k
    | None => false
    end.
Proof.
  destruct o as [|own [|parent proto]]; cbn; try reflexivity.
  rewrite andb_false_r. reflexivity.
Qed.

(** A name that overrides the direct parent's declaration overrides an
    ancestor's. *)
Lemma overrides_parent_isOverride (o : StyleObject) (k : Property) :
  overrides_parent o k = true -> isOverride o k = true.
Proof.
  unfold overrides_parent, isOverride.
  destruct (tables o) as [|own [|parent rest]]; try discriminate.
  intros H. apply andb_true_iff in H. destruct H as [H1 H2].
  cbn [existsb]. rewrite H1, H2. reflexivity.
Qed.

(** ** Reset operations *)

Section ResetLoop.

Variable h : Heap.

(** The three operations are one loop: for each visited name, assign the
    value [g] selects for it, if any. *)
Variable g : Property -> option Style.
Hypothesis g_property : forall k e, g k = Some e -> property_of e = k.

Let step (this : Shape) (key : Property) : Shape :=
  match g key with
  | Some e => assign h e this
  | None => this
  end.

Lemma restore_read (keys : list Property) (this : Shape) (k : Property) :
  read k (fold_left step keys this) =
    match (if mem k keys then g k else None) with
    | Some d => read k (assign h d this)
    | None => read k this
    end.
Proof.
  revert this. induction keys as [|k0 keys IH]; intros this; [reflexivity|].
  cbn [fold_left]. rewrite IH. unfold mem in *. cbn [existsb].
  unfold step.
  destruct (Property_eqb k k0) eqn:E; cbn [orb].
  - apply Property_eqb_eq in E. subst k0.
    destruct (g k) as [d|] eqn:Hg.
    + destruct (existsb _ keys); [|reflexivity].
      rewrite assign_idempotent. reflexivity.
    + destruct (existsb _ keys); reflexivity.
  - assert (Hne : k <> k0).
    { intros ->. rewrite Property_eqb_refl in E. discriminate E. }
    destruct (g k0) as [d0|] eqn:Hg0; [|reflexivity].
    pose proof (g_property _ _ Hg0) as Hd0.
    assert (Hread : read k (assign h d0 this) = read k this).
    { apply read_assign_other. rewrite Hd0. exact Hne. }
    destruct (existsb _ keys); [|exact Hread].
    destruct (g k) as [d|] eqn:Hg; [|exact Hread].
    pose proof (g_property _ _ Hg) as Hd. subst k.
    apply read_assign_congr. exact Hread.
Qed.

Lemma restore_dirty (keys : list Property) (this : Shape) :
  dirty (fold_left step keys this) =
    dirty this
    || existsb (fun k => match g k with
                         | Some d => negb (style_equal h (read k this) d)
                         | None => false
                         end) keys.
Proof.
  revert this. induction keys as [|k0 keys IH]; intros this.
  - cbn. rewrite orb_false_r. reflexivity.
  - cbn [fold_left existsb]. rewrite IH. unfold step.
    destruct (g k0) as [d0|] eqn:Hg0; [|reflexivity].
    pose proof (g_property _ _ Hg0) as Hd0.
    rewrite dirty_assign, Hd0. rewrite assign_spec, Hd0.
    destruct (style_equal h (read k0 this) d0); cbn [negb orb].
    + rewrite orb_false_r. reflexivity.
    + rewrite !orb_true_r. reflexivity.
Qed.

End ResetLoop.

Lemma fold_left_ext {A B : Type} (f f' : A -> B -> A) (l : list B) (a : A) :
  (forall a b, f a b = f' a b) -> fold_left f l a = fold_left f' l a.
Proof.
  intros H. revert a. induction l as [|b l IH]; intros a; [reflexivity|].
  cbn [fold_left]. rewrite H. apply IH.
Qed.

(** ** The setter contract *)

Lemma ref_strict_eq_refl (r : option ref) : ref_strict_eq r r = true.
Proof. destruct r as [n|]; [apply Nat.eqb_refl | reflexivity]. Qed.

(** C1. For every shape and every pair of [lineDash] values, the setter
    treats the new value as unchanged, storing nothing and leaving [dirty]
    alone, exactly when old and new are the same value or are both present
    sequences of equal length whose elements are pairwise equal; in every
    other case it stores the new value and arms [dirty]. *)
Theorem lineDash_setter_deep_equality (h : Heap) (this : Shape) (value : option ref) :
  set_lineDash h value this =
    (if lineDash_unchanged h (lineDash this) value then this
     else put_dirty true (put_lineDash value this))
  /\ (set_lineDash h value this = this
      <-> lineDash_unchanged h (lineDash this) value = true).
Proof.
  pose proof (set_lineDash_spec h value this) as Hspec.
  split; [exact Hspec|].
  rewrite Hspec.
  destruct (lineDash_unchanged h (lineDash this) value) eqn:E.
  - split; reflexivity.
  - split; [|discriminate].
    intros Heq. apply (f_equal _lineDash) in Heq. cbn in Heq.
    unfold lineDash_unchanged, lineDash in E. rewrite <- Heq in E.
    rewrite ref_strict_eq_refl in E. discriminate E.
Qed.

(** The examples of the specification: after [[1,2,3]], a second instance of
    [[1,2,3]] arms nothing, while [[1,2,4]] and unset do; from unset,
    [[1,2,3]] arms. *)
Lemma lineDash_setter_examples :
  let h := sample_heap in
  let this := put_dirty false (set_lineDash h (Some 1) new_Shape) in
  set_lineDash h (Some 2) this = this
  /\ set_lineDash h (Some 3) this = put_dirty true (put_lineDash (Some 3) this)
  /\ set_lineDash h None this = put_dirty true (put_lineDash None this)
  /\ set_lineDash h (Some 1) new_Shape
     = put_dirty true (put_lineDash (Some 1) new_Shape).
Proof.
  cbv zeta. refine (conj _ (conj _ (conj _ _))).
  - exact (proj1 (lineDash_setter_deep_equality sample_heap
             (put_dirty false (set_lineDash sample_heap (Some 1) new_Shape))
             (Some 2))).
  - exact (proj1 (lineDash_setter_deep_equality sample_heap
             (put_dirty false (set_lineDash sample_heap (Some 1) new_Shape))
             (Some 3))).
  - exact (proj1 (lineDash_setter_deep_equality sample_heap
             (put_dirty false (set_lineDash sample_heap (Some 1) new_Shape))
             None)).
  - exact (proj1 (lineDash_setter_deep_equality sample_heap new_Shape (Some 1))).
Defined.

(** The same instance is unchanged whatever it holds, NaN included, while a
    fresh array holding NaN never compares equal. *)
Lemma lineDash_setter_NaN :
  lineDash_unchanged sample_heap (Some 4) (Some 4) = true
  /\ pairwise_equal (arrays sample_heap 4) (arrays sample_heap 4) = false.
Proof. split; reflexivity. Qed.

(** C4, as the code has it. For every shape and every numeric input other
    than NaN, the [opacity] setter clamps the input to [[0,1]], then compares
    and stores the clamped value: afterwards the stored opacity equals the
    clamped input, 1.5 clamps to 1 and -0.2 to 0, and a call whose clamped
    value equals the stored one changes nothing. *)
Theorem opacity_setter_clamps (this : Shape) (value : number) :
  isNaN value = false ->
  let c := Math_min [one; Math_max [zero; value]] in
  le zero c = true /\ le c one = true
  /\ strict_eq c (clamp01 value) = true
  /\ set_opacity value this =
       (if strict_eq (opacity this) c then this
        else put_dirty true (put_opacity c this))
  /\ strict_eq (opacity (set_opacity value this)) c = true
  /\ Math_min [one; Math_max [zero; one_and_a_half]] = one
  /\ Math_min [one; Math_max [zero; minus_a_fifth]] = zero.
Proof.
  intros Hnan. cbv zeta.
  destruct (clamp_range value Hnan) as (H0 & H1 & H2).
  assert (Hset : set_opacity value this =
                 (if strict_eq (opacity this) (Math_min [one; Math_max [zero; value]])
                  then this
                  else put_dirty true
                         (put_opacity (Math_min [one; Math_max [zero; value]]) this))).
  { unfold set_opacity, strict_neq, opacity.
    destruct (strict_eq (_opacity this) (Math_min [one; Math_max [zero; value]]));
      reflexivity. }
  repeat split; try assumption; try reflexivity.
  rewrite Hset.
  destruct (strict_eq (opacity this) (Math_min [one; Math_max [zero; value]])) eqn:E;
    [exact E|].
  unfold opacity, put_dirty, put_opacity. cbn [_opacity].
  apply strict_eq_refl.
  destruct (Math_min [one; Math_max [zero; value]]); try reflexivity.
  discriminate H0.
Qed.

Lemma opacity_setter_examples :
  isNaN one_and_a_half = false
  /\ opacity (set_opacity one_and_a_half (set_opacity minus_a_fifth new_Shape)) = one
  /\ dirty (set_opacity one
              (put_dirty false (set_opacity one_and_a_half
                                  (set_opacity minus_a_fifth new_Shape)))) = false
  /\ opacity (set_opacity minus_a_fifth new_Shape) = zero.
Proof.
  split; [reflexivity|].
  pose proof (opacity_setter_clamps (set_opacity minus_a_fifth new_Shape)
                one_and_a_half eq_refl) as H.
  cbv zeta in H. destruct H as (_ & _ & _ & Hset & _).
  refine (conj _ (conj _ _)).
  - rewrite Hset. reflexivity.
  - reflexivity.
  - reflexivity.
Defined.

(** Counterexample to C4 as stated, at NaN: the minimum and the maximum pass
    NaN through, the setter stores it although it lies outside [[0,1]], and a
    second call with NaN arms the flag again although NaN is the stored
    value. *)
Lemma opacity_setter_NaN :
  opacity (set_opacity NaN new_Shape) = NaN
  /\ le zero (opacity (set_opacity NaN new_Shape)) = false
  /\ le (opacity (set_opacity NaN new_Shape)) one = false
  /\ dirty (set_opacity NaN (put_dirty false (set_opacity NaN new_Shape))) = true.
Proof. repeat split; reflexivity. Qed.

(** C5. For every attribute and every shape, calling the setter with a value
    equal to the stored one under the attribute's equality rule leaves the
    shape as it is: the stored value, the dirty flag and every other
    attribute. *)
Theorem setter_equal_value_noop (h : Heap) (e : Style) (this : Shape) :
  style_equal h (read (property_of e) this) e = true ->
  assign h e this = this.
Proof. intros H. rewrite assign_spec, H. reflexivity. Qed.

Lemma setter_equal_value_examples :
  let this := put_dirty false (set_lineDash sample_heap (Some 1) new_Shape) in
  style_equal sample_heap (read P_lineDash this) (LineDash (Some 2)) = true
  /\ assign sample_heap (LineDash (Some 2)) this = this
  /\ assign sample_heap (Opacity five) this = this
  /\ assign sample_heap (Fill (Some "black")) this = this.
Proof.
  cbv zeta. split; [reflexivity|]. refine (conj _ (conj _ _)).
  - apply (setter_equal_value_noop sample_heap (LineDash (Some 2))). reflexivity.
  - apply (setter_equal_value_noop sample_heap (Opacity five)). reflexivity.
  - apply (setter_equal_value_noop sample_heap (Fill (Some "black"))). reflexivity.
Defined.

(** After the renderer has cleared the flag, re-assigning the stored value
    still arms nothing, provided the value equals itself. *)
Lemma reassign_after_clear (h : Heap) (e : Style) (this : Shape) :
  style_equal h (stored e) e = true ->
  style_equal h (read (property_of e) this) e = false ->
  assign h e (put_dirty false (assign h e this)) = put_dirty false (assign h e this).
Proof.
  intros Hself H. rewrite (assign_spec h e this), H.
  rewrite assign_spec.
  replace (read (property_of e) (put_dirty false (put_dirty true (put (stored e) this))))
    with (stored e) by (destruct e; reflexivity).
  rewrite Hself. reflexivity.
Qed.

(** NaN equals nothing, itself included: each assignment of NaN arms the
    flag. *)
Lemma reassign_NaN_arms :
  dirty (set_strokeWidth NaN (put_dirty false (set_strokeWidth NaN new_Shape))) = true.
Proof. reflexivity. Qed.

(** ** The reset operations, by attribute *)

(** C7. For every variant, [restoreOwnStyles] puts every attribute whose
    name the variant's own table declares through its setter with that
    table's default, so that it holds the default, and leaves every other
    attribute, inherited defaults included, untouched. *)
Theorem restoreOwnStyles_spec (h : Heap) (styles : StyleObject) (this : Shape)
    (key : Property) :
  let this' := restoreOwnStyles h styles this in
  (mem key (ownKeys styles) =
     match own_get (own_table styles) key with Some _ => true | None => false end)
  /\ match own_get (own_table styles) key with
     | Some d =>
         read key this' = read key (assign h d this) /\ holds_default h d this'
     | None => read key this' = read key this
     end.
Proof.
  cbv zeta. split.
  { unfold ownKeys. rewrite mem_keys. apply own_get_has. }
  unfold restoreOwnStyles.
  assert (Hread := restore_read h (get styles) (get_property styles)
                     (getOwnPropertyNames styles) this key).
  cbv zeta in Hread.
  change (fold_left (fun this0 key0 => assign_from h styles key0 this0)
            (getOwnPropertyNames styles) this)
    with (fold_left (fun this0 key0 =>
                       match get styles key0 with
                       | Some e => assign h e this0
                       | None => this0
                       end) (getOwnPropertyNames styles) this).
  rewrite getOwnPropertyNames_ownKeys, mem_ownKeys in Hread.
  rewrite getOwnPropertyNames_ownKeys.
  destruct (hasOwnProperty styles key) eqn:Hown.
  - destruct (get_hasOwnProperty styles key Hown) as [Hget _].
    rewrite Hget in Hread.
    destruct styles as [|own proto]; [discriminate Hown|].
    cbn [own_table tables] in *.
    destruct (own_get own key) as [d|] eqn:Hd.
    + split; [exact Hread|].
      apply (holds_default_read h d _ (assign h d this)).
      * rewrite (own_get_property _ _ _ Hd). exact Hread.
      * apply holds_default_assign.
    + exact Hread.
  - destruct styles as [|own proto]; [exact Hread|].
    cbn [own_table tables hasOwnProperty] in *.
    rewrite own_get_has in Hown.
    destruct (own_get own key); [discriminate Hown|exact Hread].
Qed.

(** On the subclass that declares only [{strokeWidth: 2}], the customised
    fill stays and the stroke width is 2 again. *)
Lemma restoreOwnStyles_example :
  let this' := restoreOwnStyles sample_heap thickStyles custom in
  read P_fill this' = Fill (Some "blue")
  /\ read P_strokeWidth this' = StrokeWidth two.
Proof.
  cbv zeta. split.
  - exact (proj2 (restoreOwnStyles_spec sample_heap thickStyles custom P_fill)).
  - exact (proj1 (proj2 (restoreOwnStyles_spec sample_heap thickStyles custom
                           P_strokeWidth))).
Defined.

(** C8. For every variant, [restoreAllStyles] puts every attribute named in
    the resolved table (own and inherited declarations, the most derived
    winning) through its setter with the resolved default, so that it holds
    the default. *)
Theorem restoreAllStyles_spec (h : Heap) (styles : StyleObject) (this : Shape)
    (key : Property) :
  let this' := restoreAllStyles h styles this in
  get styles key = own_get (resolve styles) key
  /\ match own_get (resolve styles) key with
     | Some d =>
         read key this' = read key (assign h d this) /\ holds_default h d this'
     | None => read key this' = read key this
     end.
Proof.
  cbv zeta. split; [apply get_resolve|].
  unfold restoreAllStyles.
  assert (Hread := restore_read h (get styles) (get_property styles)
                     (for_in styles) this key).
  cbv zeta in Hread.
  change (fold_left (fun this0 property => assign_from h styles property this0)
            (for_in styles) this)
    with (fold_left (fun this0 key0 =>
                       match get styles key0 with
                       | Some e => assign h e this0
                       | None => this0
                       end) (for_in styles) this).
  rewrite mem_for_in in Hread. rewrite <- get_resolve.
  destruct (get styles key) as [d|] eqn:Hd; [|exact Hread].
  split; [exact Hread|].
  apply (holds_default_read h d _ (assign h d this)).
  - rewrite (get_property _ _ _ Hd). exact Hread.
  - apply holds_default_assign.
Qed.

(** On the same subclass both the fill (the ancestor's black) and the stroke
    width (2) are reset. *)
Lemma restoreAllStyles_example :
  let this' := restoreAllStyles sample_heap thickStyles custom in
  read P_fill this' = Fill (Some "black")
  /\ read P_strokeWidth this' = StrokeWidth two.
Proof.
  cbv zeta. split.
  - exact (proj1 (proj2 (restoreAllStyles_spec sample_heap thickStyles custom
                           P_fill))).
  - exact (proj1 (proj2 (restoreAllStyles_spec sample_heap thickStyles custom
                           P_strokeWidth))).
Defined.

(** C2, as the code has it. For every variant, [restoreOverriddenStyles]
    puts every attribute whose name is declared both in the variant's own
    table and in the own table of its direct parent through its setter with
    the variant's own default, and leaves every other attribute untouched. *)
Theorem restoreOverriddenStyles_spec (h : Heap) (styles : StyleObject)
    (this : Shape) (key : Property) :
  let this' := restoreOverriddenStyles h styles this in
  match (if overrides_parent styles key then own_get (own_table styles) key
         else None) with
  | Some d =>
      read key this' = read key (assign h d this) /\ holds_default h d this'
  | None => read key this' = read key this
  end.
Proof.
  cbv zeta. rewrite overrides_parent_spec. unfold restoreOverriddenStyles.
  destruct (getPrototypeOf styles) as [protoStyles|] eqn:Hproto; [|reflexivity].
  set (g := fun k => if hasOwnProperty styles k && hasOwnProperty protoStyles k
                     then get styles k else None).
  assert (Hg : forall k e, g k = Some e -> property_of e = k).
  { intros k e. unfold g.
    destruct (hasOwnProperty styles k && hasOwnProperty protoStyles k);
      [apply get_property | discriminate]. }
  assert (Hread := restore_read h g Hg (for_in styles) this key).
  cbv zeta in Hread.
  rewrite (fold_left_ext _
             (fun this0 key0 => match g key0 with
                                | Some e => assign h e this0
                                | None => this0
                                end)).
  2:{ intros a b. unfold g, assign_from.
      destruct (hasOwnProperty styles b && hasOwnProperty protoStyles b);
        reflexivity. }
  rewrite mem_for_in in Hread.
  destruct (hasOwnProperty styles key) eqn:Hown.
  - destruct (get_hasOwnProperty styles key Hown) as [Hget Hsome].
    rewrite <- Hget.
    destruct (get styles key) as [d|] eqn:Hd; [|contradiction Hsome; reflexivity].
    assert (Hgk : g key = if hasOwnProperty protoStyles key then Some d else None).
    { unfold g. rewrite Hown, Hd. reflexivity. }
    rewrite Hgk in Hread. cbn [andb].
    destruct (hasOwnProperty protoStyles key); [|exact Hread].
    split; [exact Hread|].
    apply (holds_default_read h d _ (assign h d this)).
    + rewrite (get_property _ _ _ Hd). exact Hread.
    + apply holds_default_assign.
  - assert (Hgk : g key = None).
    { unfold g. rewrite Hown. reflexivity. }
    rewrite Hgk in Hread. cbn [andb].
    destruct (get styles key); exact Hread.
Qed.

(** On the subclass that redeclares [fill] but not [strokeWidth], only the
    fill is reset, to the subclass's red. *)
Lemma restoreOverriddenStyles_example :
  let this' := restoreOverriddenStyles sample_heap redStyles custom in
  read P_fill this' = Fill (Some "red")
  /\ read P_strokeWidth this' = StrokeWidth seven.
Proof.
  cbv zeta. split.
  - exact (proj1 (restoreOverriddenStyles_spec sample_heap redStyles custom P_fill)).
  - exact (restoreOverriddenStyles_spec sample_heap redStyles custom P_strokeWidth).
Defined.

(** Counterexample to C2 as stated, two levels down: the variant redeclares
    [fill], which [Shape] declares, but its direct parent does not; [fill] is
    an override in the specification's sense and yet keeps its custom
    value. *)
Lemma restoreOverriddenStyles_grandparent :
  isOverride thickRedStyles P_fill = true
  /\ own_get (own_table thickRedStyles) P_fill = Some (Fill (Some "red"))
  /\ read P_fill custom = Fill (Some "blue")
  /\ read P_fill (restoreOverriddenStyles sample_heap thickRedStyles custom)
     = Fill (Some "blue").
Proof. repeat split; reflexivity. Qed.

(** On the root variant nothing is an override, and the operation is the
    identity. *)
Lemma restoreOverriddenStyles_root (h : Heap) (this : Shape) :
  restoreOverriddenStyles h defaultStyles this = this.
Proof. reflexivity. Qed.

(** The flag after a reset: armed when it was, or when some visited
    attribute differed from its default. *)
Lemma restoreAllStyles_dirty (h : Heap) (styles : StyleObject) (this : Shape) :
  dirty (restoreAllStyles h styles this) =
    dirty this
    || existsb (fun k => match get styles k with
                         | Some d => negb (style_equal h (read k this) d)
                         | None => false
                         end) (for_in styles).
Proof. exact (restore_dirty h (get styles) (get_property styles) (for_in styles) this). Qed.

(** A fresh instance already holds the defaults of [Shape]: resetting it
    changes nothing and arms nothing. *)
Lemma restoreAllStyles_fresh (h : Heap) :
  restoreAllStyles h defaultStyles new_Shape = new_Shape.
Proof. reflexivity. Qed.

(** ** Applying the attributes *)

Lemma forallb_when (f : Ctx.Write -> bool) (b : bool) (ws : list Ctx.Write) :
  forallb f ws = true -> forallb f (when b ws) = true.
Proof. destruct b; [exact (fun H => H) | reflexivity]. Qed.

Lemma forallb_if_ref (f : Ctx.Write -> bool) (r : option ref)
    (body : ref -> list Ctx.Write) :
  (forall v, forallb f (body v) = true) -> forallb f (if_ref r body) = true.
Proof. destruct r; [intros H; apply H | reflexivity]. Qed.

Lemma forallb_if_paint (f : Ctx.Write -> bool) (p : Paint)
    (body : string -> list Ctx.Write) :
  (forall v, forallb f (body v) = true) -> forallb f (if_paint p body) = true.
Proof.
  intros H. unfold if_paint. destruct p; [|reflexivity].
  destruct (paint_truthy (Some s)); [apply H | reflexivity].
Qed.

Lemma if_paint_falsy (p : Paint) (body : string -> list Ctx.Write) :
  paint_truthy p = false -> if_paint p body = [].
Proof. unfold if_paint. destruct p; [intros ->|]; reflexivity. Qed.

Lemma if_paint_truthy (c : string) (body : string -> list Ctx.Write) :
  c <> "" -> if_paint (Some c) body = body c.
Proof.
  intros Hc. unfold if_paint, paint_truthy.
  destruct (String.eqb_spec c ""); [contradiction|reflexivity].
Qed.

(** Without a truthy stroke paint no write configures the outline. *)
Lemma apply_no_stroke (h : Heap) (this : Shape) :
  paint_truthy (stroke this) = false ->
  forallb (fun w => negb (Ctx.stroke_dependent w)) (applyContextAttributes h this)
  = true.
Proof.
  intros Hs. unfold applyContextAttributes.
  rewrite (if_paint_falsy (stroke this)) by exact Hs.
  rewrite !forallb_app. cbn [forallb andb].
  rewrite forallb_if_paint, forallb_when, forallb_if_ref;
    try reflexivity; intros; reflexivity.
Qed.

(** C3, as the code has it. For every attribute state: if stroke is unset,
    the sink receives no line width, dash, dash offset, cap or join, whatever
    [strokeWidth] is; if stroke is set to a non-empty string, the sink
    receives the stroke paint and then the current [strokeWidth], a zero
    width included. *)
Theorem applyContextAttributes_stroke (h : Heap) (this : Shape) :
  (stroke this = None ->
   forallb (fun w => negb (Ctx.stroke_dependent w)) (applyContextAttributes h this)
   = true)
  /\ (forall c, stroke this = Some c -> c <> "" ->
      exists before after,
        applyContextAttributes h this =
          before ++ Ctx.strokeStyle c :: Ctx.lineWidth (strokeWidth this) :: after).
Proof.
  split.
  - intros Hs. apply apply_no_stroke. rewrite Hs. reflexivity.
  - intros c Hs Hc. unfold applyContextAttributes. rewrite Hs.
    rewrite (if_paint_truthy c) by exact Hc.
    eexists. eexists. cbn [app]. reflexivity.
Qed.

(** The examples of the specification: no stroke and a width of 5 gives no
    line width; a red stroke of width 0 gives the paint and a zero width. *)
Lemma applyContextAttributes_stroke_examples :
  forallb (fun w => negb (Ctx.is_lineWidth w))
    (applyContextAttributes sample_heap (set_strokeWidth five new_Shape)) = true
  /\ forallb (fun w => negb (Ctx.stroke_dependent w))
       (applyContextAttributes sample_heap (set_strokeWidth five new_Shape)) = true
  /\ exists before after,
       applyContextAttributes sample_heap (set_stroke (Some "red") new_Shape) =
         before ++ Ctx.strokeStyle "red" :: Ctx.lineWidth zero :: after.
Proof.
  split; [reflexivity|]. split.
  - exact (proj1 (applyContextAttributes_stroke sample_heap
                    (set_strokeWidth five new_Shape)) eq_refl).
  - exact (proj2 (applyContextAttributes_stroke sample_heap
                    (set_stroke (Some "red") new_Shape)) "red" eq_refl
             ltac:(discriminate)).
Defined.

(** Counterexample to C3 as stated, the empty string: the stroke is set,
    and the sink receives neither a stroke paint nor a line width. *)
Lemma applyContextAttributes_empty_stroke :
  stroke (set_stroke (Some "") new_Shape) = Some ""
  /\ strokeWidth (set_stroke (Some "") new_Shape) = zero
  /\ applyContextAttributes sample_heap (set_stroke (Some "") new_Shape)
     = [Ctx.fillStyle "black"].
Proof. repeat split; reflexivity. Qed.

(** C10. An empty-string paint is stored, and at the sink it behaves like an
    unset one: with an empty fill no interior paint is assigned, with an
    empty stroke none of the stroke paint, line width, dash, dash offset,
    cap or join is, and the writes are those of the shape with the paint
    unset. *)
Theorem empty_paint_like_unset (h : Heap) (this : Shape) :
  (fill this = Some "" ->
   forallb (fun w => negb (Ctx.is_fillStyle w)) (applyContextAttributes h this) = true
   /\ applyContextAttributes h this = applyContextAttributes h (put_fill None this))
  /\ (stroke this = Some "" ->
      forallb (fun w => negb (Ctx.stroke_dependent w)) (applyContextAttributes h this)
      = true
      /\ applyContextAttributes h this
         = applyContextAttributes h (put_stroke None this)).
Proof.
  split; intros H.
  - split.
    + unfold applyContextAttributes. rewrite H.
      rewrite !forallb_app. cbn [if_paint paint_truthy String.eqb negb forallb andb].
      rewrite forallb_if_paint, forallb_when, forallb_if_ref;
        try reflexivity; intros.
      rewrite !forallb_app.
      rewrite forallb_if_ref, !forallb_when; try reflexivity; intros; reflexivity.
    + unfold applyContextAttributes, fill, stroke in *. rewrite H. reflexivity.
  - split.
    + apply apply_no_stroke. rewrite H. reflexivity.
    + unfold applyContextAttributes, fill, stroke in *. rewrite H. reflexivity.
Qed.

Lemma empty_paint_examples :
  fill (set_fill (Some "") new_Shape) = Some ""
  /\ applyContextAttributes sample_heap (set_fill (Some "") new_Shape) = []
  /\ stroke (set_stroke (Some "") (set_strokeWidth five new_Shape)) = Some ""
  /\ applyContextAttributes sample_heap
       (set_stroke (Some "") (set_strokeWidth five new_Shape))
     = applyContextAttributes sample_heap
         (put_stroke None (set_stroke (Some "") (set_strokeWidth five new_Shape))).
Proof.
  split; [reflexivity|]. split; [reflexivity|]. split; [reflexivity|].
  exact (proj2 (proj2 (empty_paint_like_unset sample_heap
                         (set_stroke (Some "") (set_strokeWidth five new_Shape)))
                  eq_refl)).
Defined.

(** A fresh instance writes its fill and nothing else. *)
Lemma applyContextAttributes_fresh (h : Heap) :
  applyContextAttributes h new_Shape = [Ctx.fillStyle "black"].
Proof. reflexivity. Qed.

(** ** Hit testing *)

(** C9. For every shape of every variant and every point, the generic
    point-in-node query returns what the fill hit test returns. *)
Theorem isPointInNode_isPointInPath (T : Type) (V : ShapeVariant T) (this : T)
    (px py : number) :
  isPointInNode this px py = isPointInPath this px py.
Proof. reflexivity. Qed.

Lemma isPointInNode_unit_square :
  isPointInNode {| style := new_Shape |} one_and_a_half zero = false
  /\ isPointInNode {| style := new_Shape |} one zero = true.
Proof.
  rewrite !isPointInNode_isPointInPath. split; reflexivity.
Defined.

(** * Further properties *)

(** ** Equality tests and equality *)

Lemma paint_strict_eq_eq (a b : Paint) : paint_strict_eq a b = true <-> a = b.
Proof.
  destruct a as [s1|], b as [s2|]; cbn [paint_strict_eq]; split; intros H;
    try discriminate H; try reflexivity.
  - apply String.eqb_eq in H. rewrite H. reflexivity.
  - injection H as ->. apply String.eqb_refl.
Qed.

Lemma ref_strict_eq_eq (a b : option ref) : ref_strict_eq a b = true <-> a = b.
Proof.
  destruct a as [r1|], b as [r2|]; cbn [ref_strict_eq]; split; intros H;
    try discriminate H; try reflexivity.
  - apply Nat.eqb_eq in H. rewrite H. reflexivity.
  - injection H as ->. apply Nat.eqb_refl.
Qed.

Lemma lineCap_strict_eq_eq (a b : ShapeLineCap) : lineCap_strict_eq a b = true <-> a = b.
Proof. destruct a, b; cbn; split; intros H; try discriminate H; reflexivity. Qed.

Lemma lineJoin_strict_eq_eq (a b : ShapeLineJoin) :
  lineJoin_strict_eq a b = true <-> a = b.
Proof. destruct a, b; cbn; split; intros H; try discriminate H; reflexivity. Qed.

(** Two numbers are [===] only when they are the same number or both are
    zeros. *)
Lemma strict_eq_cases (a b : number) :
  strict_eq a b = true ->
  a = b \/ (truthy a = false /\ truthy b = false /\ isNaN a = false /\ isNaN b = false).
Proof.
  unfold strict_eq, SFeqb.
  destruct a as [[|]|[|]| |[|] m1 e1], b as [[|]|[|]| |[|] m2 e2];
    cbv beta iota delta [SFcompare]; try discriminate;
    try (intros _; left; reflexivity);
    try (intros _; right; repeat split; reflexivity).
  - destruct (Z.compare_spec e1 e2) as [He|He|He]; try discriminate.
    destruct (Pos.compare_cont Eq m1 m2) eqn:Hm; try discriminate.
    apply compare_cont_Eq_eq in Hm. subst. left; reflexivity.
  - destruct (Z.compare_spec e1 e2) as [He|He|He]; try discriminate.
    destruct (Pos.compare_cont Eq m1 m2) eqn:Hm; try discriminate.
    apply compare_cont_Eq_eq in Hm. subst. left; reflexivity.
Qed.

Lemma strict_eq_sym (a b : number) : strict_eq a b = true -> strict_eq b a = true.
Proof.
  intros H. destruct (strict_eq_cases a b H) as [->|(Ha & Hb & Na & Nb)].
  - exact H.
  - destruct a, b; try discriminate; reflexivity.
Qed.

Lemma strict_eq_not_NaN (a b : number) :
  strict_eq a b = true -> isNaN a = false /\ isNaN b = false.
Proof.
  intros H. destruct a, b; try discriminate H; split; reflexivity.
Qed.

(** A shape is its nine attributes and its flag. *)
Lemma Shape_ext (a b : Shape) :
  (forall k, read k a = read k b) -> dirty a = dirty b -> a = b.
Proof.
  intros H Hd. destruct a, b.
  pose proof (H P_fill) as H1. pose proof (H P_stroke) as H2.
  pose proof (H P_strokeWidth) as H3. pose proof (H P_lineDash) as H4.
  pose proof (H P_lineDashOffset) as H5. pose proof (H P_lineCap) as H6.
  pose proof (H P_lineJoin) as H7. pose proof (H P_opacity) as H8.
  pose proof (H P_shadow) as H9.
  cbn in H1, H2, H3, H4, H5, H6, H7, H8, H9, Hd.
  congruence.
Qed.

(** ** Setters, composed *)

Lemma le_zero_not_lt (o : number) : le zero o = true -> lt o zero = false.
Proof.
  destruct o as [s|s| |s m e]; try destruct s; unfold_compare; congruence.
Qed.

Lemma le_one_not_gt (o : number) : le o one = true -> lt one o = false.
Proof.
  intros Hle.
  assert (Hnan : isNaN o = false) by (destruct o; [reflexivity..|discriminate Hle|reflexivity]).
  destruct (one_cases o Hnan) as [(_ & H)|[(H1 & H2)|H]]; [exact H| |].
  - exfalso. revert Hle H2. unfold le, lt, SFleb, SFltb.
    destruct (SFcompare o one) as [[| |]|] eqn:E; try discriminate.
    intros _ _.
    assert (Heq : strict_eq o one = true) by (unfold strict_eq, SFeqb; rewrite E; reflexivity).
    destruct (strict_eq_cases o one Heq) as [->|(_ & Ht & _)].
    + rewrite lt_one_one in H1. discriminate H1.
    + discriminate Ht.
  - subst o. exact lt_one_one.
Qed.

Lemma clamp_not_NaN (v : number) :
  isNaN v = false -> isNaN (Math_min [one; Math_max [zero; v]]) = false.
Proof.
  intros Hnan. destruct (clamp_range v Hnan) as (H0 & _).
  destruct (Math_min [one; Math_max [zero; v]]); try reflexivity. discriminate H0.
Qed.

Lemma clamp_in_range (o : number) :
  le zero o = true -> le o one = true ->
  strict_eq o (Math_min [one; Math_max [zero; o]]) = true.
Proof.
  intros H0 H1.
  assert (Hnan : isNaN o = false) by (destruct o; [reflexivity..|discriminate H1|reflexivity]).
  destruct (clamp_range o Hnan) as (_ & _ & Hc).
  unfold clamp01 in Hc.
  rewrite (le_zero_not_lt o H0), (le_one_not_gt o H1) in Hc.
  apply strict_eq_sym. exact Hc.
Qed.

Lemma opacity_ok_zero_like (o : number) :
  truthy o = false -> isNaN o = false -> opacity_ok o = true.
Proof. destruct o as [[|]|s| |s m e]; try discriminate; reflexivity. Qed.

Lemma opacity_ok_clamp (v : number) :
  opacity_ok (Math_min [one; Math_max [zero; v]]) = true.
Proof.
  unfold opacity_ok. destruct (isNaN v) eqn:Hnan.
  - destruct v; try discriminate Hnan. reflexivity.
  - destruct (clamp_range v Hnan) as (H0 & H1 & _).
    rewrite H0, H1. apply orb_true_r.
Qed.

Section SetterLaws.

Variable h : Heap.

(** X1. Setters of different attributes commute: the order in which two
    attributes are assigned does not show in the resulting shape. *)
Theorem setters_commute (e1 e2 : Style) (this : Shape) :
  property_of e1 <> property_of e2 ->
  assign h e1 (assign h e2 this) = assign h e2 (assign h e1 this).
Proof.
  intros Hne.
  assert (Hne' : property_of e2 <> property_of e1) by (intros E; apply Hne; symmetry; exact E).
  apply Shape_ext.
  - intros k.
    destruct (Property_eqb k (property_of e1)) eqn:E1.
    + apply Property_eqb_eq in E1. subst k.
      rewrite (read_assign_other h (property_of e1) e2 (assign h e1 this)) by exact Hne.
      apply read_assign_congr. apply read_assign_other. exact Hne.
    + assert (Hk1 : k <> property_of e1).
      { intros ->. rewrite Property_eqb_refl in E1. discriminate E1. }
      rewrite (read_assign_other h k e1 (assign h e2 this)) by exact Hk1.
      destruct (Property_eqb k (property_of e2)) eqn:E2.
      * apply Property_eqb_eq in E2. subst k.
        symmetry. apply read_assign_congr. apply read_assign_other. exact Hne'.
      * assert (Hk2 : k <> property_of e2).
        { intros ->. rewrite Property_eqb_refl in E2. discriminate E2. }
        rewrite !(read_assign_other h k e2) by exact Hk2.
        rewrite (read_assign_other h k e1) by exact Hk1. reflexivity.
  - rewrite !dirty_assign.
    rewrite (read_assign_other h (property_of e1) e2 this) by exact Hne.
    rewrite (read_assign_other h (property_of e2) e1 this) by exact Hne'.
    destruct (dirty this), (style_equal h (read (property_of e1) this) e1),
      (style_equal h (read (property_of e2) this) e2); reflexivity.
Qed.

Lemma read_assign_exact (e : Style) (this : Shape) :
  identity_compared e = true ->
  read (property_of e) (assign h e this) = e.
Proof.
  intros Hid. rewrite read_assign_same.
  destruct (style_equal h (read (property_of e) this) e) eqn:E.
  - destruct e; try discriminate Hid; cbn [property_of read style_equal] in *; f_equal.
    + apply paint_strict_eq_eq. exact E.
    + apply paint_strict_eq_eq. exact E.
    + apply lineCap_strict_eq_eq. exact E.
    + apply lineJoin_strict_eq_eq. exact E.
    + apply ref_strict_eq_eq. exact E.
  - destruct e; try discriminate Hid; reflexivity.
Qed.

(** X2. For the attributes compared by identity (fill, stroke, lineCap,
    lineJoin, shadow) the getter returns exactly the value the setter was
    last given. *)
Theorem getter_after_setter (e : Style) (this : Shape) :
  identity_compared e = true ->
  read (property_of e) (assign h e this) = e.
Proof. exact (read_assign_exact e this). Qed.

(** X3. After the [lineDash] setter the getter returns the sequence given, or
    the instance stored before when that one is deeply equal to the one
    given: the old instance is kept, the new one is not taken. *)
Theorem lineDash_after_setter (value : option ref) (this : Shape) :
  lineDash (set_lineDash h value this) = value
  \/ (lineDash (set_lineDash h value this) = lineDash this
      /\ exists o v, lineDash this = Some o /\ value = Some v /\ o <> v
                     /\ pairwise_equal (arrays h o) (arrays h v) = true).
Proof.
  rewrite set_lineDash_spec. unfold lineDash_unchanged.
  destruct (ref_strict_eq (lineDash this) value) eqn:E; cbn [orb].
  - left. apply ref_strict_eq_eq. exact E.
  - destruct (lineDash this) as [o|] eqn:Ho, value as [v|]; try (left; reflexivity).
    destruct (pairwise_equal (arrays h o) (arrays h v)) eqn:Hp; [|left; reflexivity].
    right. split; [exact Ho|]. exists o, v. repeat split; try assumption.
    intros ->. cbn [ref_strict_eq] in E. rewrite Nat.eqb_refl in E. discriminate E.
Qed.

(** X4. NaN equals nothing: assigning NaN to a numeric attribute
    (strokeWidth, lineDashOffset, opacity) stores NaN and arms the flag on
    every call, whatever is stored. *)
Theorem NaN_always_arms (e : Style) (this : Shape) :
  self_equal e = false ->
  read (property_of e) (assign h e this) = e /\ dirty (assign h e this) = true.
Proof.
  intros Hself.
  assert (Hneq : style_equal h (read (property_of e) this) e = false).
  { destruct e; try discriminate Hself; cbn [self_equal] in Hself;
      apply negb_false_iff in Hself; destruct v; try discriminate Hself;
      cbn [property_of read style_equal]; apply strict_eq_NaN_r. }
  rewrite read_assign_same, dirty_assign, Hneq. split.
  - destruct e; try discriminate Hself; cbn [self_equal] in Hself;
      apply negb_false_iff in Hself; destruct v; try discriminate Hself; reflexivity.
  - apply orb_true_r.
Qed.

Lemma style_equal_stored (e : Style) :
  self_equal e = true -> style_equal h (stored e) e = true.
Proof.
  intros Hself. destruct e; cbn [stored style_equal self_equal] in *;
    try apply negb_true_iff in Hself.
  - apply paint_strict_eq_eq. reflexivity.
  - apply paint_strict_eq_eq. reflexivity.
  - apply strict_eq_refl. exact Hself.
  - unfold lineDash_unchanged. rewrite ref_strict_eq_refl. reflexivity.
  - apply strict_eq_refl. exact Hself.
  - apply lineCap_strict_eq_eq. reflexivity.
  - apply lineJoin_strict_eq_eq. reflexivity.
  - apply strict_eq_refl. apply clamp_not_NaN. exact Hself.
  - apply ref_strict_eq_eq. reflexivity.
Qed.

(** X5. After a setter call with a value other than NaN, the stored value
    equals the given one under the attribute's rule, so calling the setter
    with it once more arms nothing, also after the flag was cleared. *)
Theorem setter_settles (e : Style) (this : Shape) (b : bool) :
  self_equal e = true ->
  style_equal h (read (property_of e) (assign h e this)) e = true
  /\ assign h e (put_dirty b (assign h e this)) = put_dirty b (assign h e this).
Proof.
  intros Hself.
  assert (Heq : style_equal h (read (property_of e) (assign h e this)) e = true).
  { rewrite read_assign_same.
    destruct (style_equal h (read (property_of e) this) e) eqn:E; [exact E|].
    apply style_equal_stored. exact Hself. }
  split; [exact Heq|].
  rewrite (assign_spec h e (put_dirty b (assign h e this))).
  replace (read (property_of e) (put_dirty b (assign h e this)))
    with (read (property_of e) (assign h e this))
    by (destruct e; reflexivity).
  rewrite Heq. reflexivity.
Qed.

(** X6. Writing back what a getter returned changes nothing, provided the
    value is no NaN and, for the opacity, lies in [[0,1]]. *)
Theorem write_back_noop (k : Property) (this : Shape) :
  self_equal (read k this) = true ->
  (k = P_opacity -> le zero (opacity this) = true /\ le (opacity this) one = true) ->
  assign h (read k this) this = this.
Proof.
  intros Hself Hrange. rewrite assign_spec.
  replace (property_of (read k this)) with k by (destruct k; reflexivity).
  assert (Heq : style_equal h (read k this) (read k this) = true).
  { destruct k; cbn [read style_equal self_equal] in *;
      try apply negb_true_iff in Hself.
    - apply paint_strict_eq_eq. reflexivity.
    - apply paint_strict_eq_eq. reflexivity.
    - apply strict_eq_refl. exact Hself.
    - unfold lineDash_unchanged. rewrite ref_strict_eq_refl. reflexivity.
    - apply strict_eq_refl. exact Hself.
    - apply lineCap_strict_eq_eq. reflexivity.
    - apply lineJoin_strict_eq_eq. reflexivity.
    - destruct (Hrange eq_refl) as [H0 H1]. apply clamp_in_range; assumption.
    - apply ref_strict_eq_eq. reflexivity. }
  rewrite Heq. reflexivity.
Qed.

End SetterLaws.

(** C6, as the code has it. For every attribute and every shape, calling the
    setter with a value that differs from the stored one under the
    attribute's equality rule stores the new value (clamped for [opacity])
    and sets dirty, leaving the other attributes alone; repeating the same
    assignment right away changes nothing, and when the value is no NaN,
    repeating it any number of times changes neither the stored value nor
    the flag, whatever the flag holds by then. *)
Theorem setter_changed_value_arms_once (h : Heap) (e : Style) (this : Shape) :
  style_equal h (read (property_of e) this) e = false ->
  let this' := assign h e this in
  read (property_of e) this' = stored e
  /\ dirty this' = true
  /\ (forall k, k <> property_of e -> read k this' = read k this)
  /\ (forall n, Nat.iter n (assign h e) this' = this')
  /\ (self_equal e = true ->
      forall b n,
        Nat.iter n (assign h e) (put_dirty b this') = put_dirty b this').
Proof.
  intros H. cbv zeta.
  assert (Hstored : read (property_of e) (assign h e this) = stored e).
  { rewrite read_assign_same, H. reflexivity. }
  refine (conj Hstored (conj _ (conj _ (conj _ _)))).
  - rewrite dirty_assign, H. apply orb_true_r.
  - intros k Hk. apply read_assign_other. exact Hk.
  - intros n. apply assign_iter.
  - intros Hself b n. induction n as [|n IH]; [reflexivity|].
    change (assign h e (Nat.iter n (assign h e) (put_dirty b (assign h e this)))
            = put_dirty b (assign h e this)).
    rewrite IH, assign_spec.
    replace (read (property_of e) (put_dirty b (assign h e this)))
      with (read (property_of e) (assign h e this))
      by (destruct e; reflexivity).
    rewrite Hstored, (style_equal_stored h e Hself). reflexivity.
Qed.

(** A red stroke on a fresh shape: stored and armed once; after the flag is
    cleared the same assignment arms nothing. *)
Lemma setter_changed_value_arms_once_example :
  let this' := set_stroke (Some "red") new_Shape in
  style_equal sample_heap (read P_stroke new_Shape) (Stroke (Some "red")) = false
  /\ read P_stroke this' = Stroke (Some "red")
  /\ dirty this' = true
  /\ set_stroke (Some "red") (set_stroke (Some "red") (put_dirty false this'))
     = put_dirty false this'.
Proof.
  cbv zeta. split; [reflexivity|].
  destruct (setter_changed_value_arms_once sample_heap (Stroke (Some "red"))
              new_Shape eq_refl) as (H1 & H2 & _ & _ & H5).
  exact (conj H1 (conj H2 (H5 eq_refl false 2))).
Defined.

(** Counterexample to C6 as stated, at NaN: the value differs from the
    stored one and is stored; once the flag is cleared, the identical
    re-assignment sets it again. *)
Lemma setter_NaN_rearms :
  let this' := set_strokeWidth NaN new_Shape in
  style_equal sample_heap (read P_strokeWidth new_Shape) (StrokeWidth NaN) = false
  /\ strokeWidth this' = NaN
  /\ dirty (put_dirty false this') = false
  /\ strokeWidth (set_strokeWidth NaN (put_dirty false this')) = NaN
  /\ dirty (set_strokeWidth NaN (put_dirty false this')) = true.
Proof. cbv zeta. refine (conj _ (conj _ (conj _ (conj _ _)))); reflexivity. Qed.

(** X7. Whatever was stored before and whatever is passed, after the
    [opacity] setter the stored opacity is NaN or lies in [[0,1]]. *)
Theorem opacity_setter_range (value : number) (this : Shape) :
  opacity_ok (opacity (set_opacity value this)) = true.
Proof.
  unfold set_opacity, strict_neq, opacity.
  destruct (strict_eq (_opacity this) (Math_min [one; Math_max [zero; value]])) eqn:E;
    cbn [negb].
  - destruct (strict_eq_cases _ _ E) as [->|(Ht & _ & Hn & _)].
    + apply opacity_ok_clamp.
    + apply opacity_ok_zero_like; assumption.
  - apply opacity_ok_clamp.
Qed.


(** ** The reset operations, composed *)

Lemma mem_In (k : Property) (ks : list Property) : mem k ks = true <-> In k ks.
Proof.
  unfold mem. rewrite existsb_exists. split.
  - intros (a & Ha & E). apply Property_eqb_eq in E. subst a. exact Ha.
  - intros H. exists k. split; [exact H|apply Property_eqb_refl].
Qed.

Lemma existsb_same_members (f : Property -> bool) (ks ks' : list Property) :
  (forall k, mem k ks = mem k ks') -> existsb f ks = existsb f ks'.
Proof.
  intros H. apply eq_iff_eq_true. rewrite !existsb_exists.
  split; intros (a & Ha & Hf); exists a; (split; [|exact Hf]);
    apply mem_In; [rewrite <- H | rewrite H]; apply mem_In; exact Ha.
Qed.

Lemma fold_left_filter {A B : Type} (c : B -> bool) (f : A -> B -> A)
    (l : list B) (a : A) :
  fold_left (fun a b => if c b then f a b else a) l a = fold_left f (filter c l) a.
Proof.
  revert a. induction l as [|b l IH]; intros a; [reflexivity|].
  cbn [fold_left filter]. destruct (c b); cbn [fold_left]; apply IH.
Qed.

Lemma fold_left_fixed {A B : Type} (f : A -> B -> A) (l : list B) (a : A) :
  (forall b, f a b = a) -> fold_left f l a = a.
Proof.
  intros H. induction l as [|b l IH]; [reflexivity|].
  cbn [fold_left]. rewrite H. exact IH.
Qed.

Lemma fold_left_invariant {A B : Type} (P : A -> Prop) (f : A -> B -> A)
    (l : list B) (a : A) :
  (forall a b, P a -> P (f a b)) -> P a -> P (fold_left f l a).
Proof.
  intros H. revert a. induction l as [|b l IH]; intros a Ha; [exact Ha|].
  cbn [fold_left]. apply IH. apply H. exact Ha.
Qed.

(** The loop the reset operations share, over the names [keys]. *)
Section ResetLaws.

Variable h : Heap.
Variable styles : StyleObject.

Let loop (keys : list Property) (this : Shape) : Shape :=
  fold_left (fun this key => match get styles key with
                             | Some e => assign h e this
                             | None => this
                             end) keys this.

(** The result depends on the set of names visited only, not on their order
    or on repetitions. *)
Lemma loop_keys (keys keys' : list Property) (this : Shape) :
  (forall k, mem k keys = mem k keys') -> loop keys this = loop keys' this.
Proof.
  intros H. unfold loop. apply Shape_ext.
  - intros k. rewrite !(restore_read h (get styles) (get_property styles)), H.
    reflexivity.
  - rewrite !(restore_dirty h (get styles) (get_property styles)).
    f_equal. apply existsb_same_members. exact H.
Qed.

Lemma loop_loop (keys keys' : list Property) (this : Shape) :
  loop keys' (loop keys this) = loop (keys ++ keys') this.
Proof. unfold loop. rewrite fold_left_app. reflexivity. Qed.

Lemma loop_absorbs (keys keys' : list Property) (this : Shape) :
  (forall k, mem k keys = true -> mem k keys' = true) ->
  loop keys' (loop keys this) = loop keys' this
  /\ loop keys (loop keys' this) = loop keys' this.
Proof.
  intros H. rewrite !loop_loop. split; apply loop_keys; intros k;
    rewrite mem_app; specialize (H k);
    destruct (mem k keys), (mem k keys'); try reflexivity;
    discriminate (H eq_refl).
Qed.

Lemma restoreOwnStyles_loop (this : Shape) :
  restoreOwnStyles h styles this = loop (getOwnPropertyNames styles) this.
Proof. reflexivity. Qed.

Lemma restoreAllStyles_loop (this : Shape) :
  restoreAllStyles h styles this = loop (for_in styles) this.
Proof. reflexivity. Qed.

Lemma restoreOverriddenStyles_loop (this : Shape) :
  restoreOverriddenStyles h styles this
  = loop (filter (overrides_parent styles) (for_in styles)) this.
Proof.
  unfold restoreOverriddenStyles, loop.
  destruct styles as [|own proto] eqn:Hs; [reflexivity|].
  cbn [getPrototypeOf]. rewrite <- fold_left_filter.
  apply fold_left_ext. intros a b.
  rewrite overrides_parent_spec. reflexivity.
Qed.

Lemma mem_own_for_in (k : Property) :
  mem k (getOwnPropertyNames styles) = true -> mem k (for_in styles) = true.
Proof.
  rewrite getOwnPropertyNames_ownKeys, mem_ownKeys, mem_for_in. intros H.
  destruct (get_hasOwnProperty styles k H) as [_ Hsome].
  destruct (get styles k); [reflexivity|contradiction Hsome; reflexivity].
Qed.

Lemma mem_overridden_own (k : Property) :
  mem k (filter (overrides_parent styles) (for_in styles)) = true ->
  mem k (getOwnPropertyNames styles) = true.
Proof.
  rewrite mem_filter, getOwnPropertyNames_ownKeys, mem_ownKeys.
  rewrite overrides_parent_spec. intros H. apply andb_true_iff in H.
  destruct H as [H _]. destruct (getPrototypeOf styles); [|discriminate H].
  apply andb_true_iff in H. exact (proj1 H).
Qed.

(** X8. Each reset operation is idempotent: a second run changes neither an
    attribute nor the flag. *)
Theorem reset_idempotent (this : Shape) :
  restoreOwnStyles h styles (restoreOwnStyles h styles this)
  = restoreOwnStyles h styles this
  /\ restoreAllStyles h styles (restoreAllStyles h styles this)
     = restoreAllStyles h styles this
  /\ restoreOverriddenStyles h styles (restoreOverriddenStyles h styles this)
     = restoreOverriddenStyles h styles this.
Proof.
  rewrite !restoreOwnStyles_loop, !restoreAllStyles_loop, !restoreOverriddenStyles_loop.
  refine (conj _ (conj _ _)); apply loop_absorbs; intros k Hk; exact Hk.
Qed.

(** X9. The reset operations are nested: [restoreAllStyles] absorbs the two
    others, and [restoreOwnStyles] absorbs [restoreOverriddenStyles], in
    either order of the calls. *)
Theorem reset_absorption (this : Shape) :
  restoreAllStyles h styles (restoreOwnStyles h styles this)
  = restoreAllStyles h styles this
  /\ restoreOwnStyles h styles (restoreAllStyles h styles this)
     = restoreAllStyles h styles this
  /\ restoreAllStyles h styles (restoreOverriddenStyles h styles this)
     = restoreAllStyles h styles this
  /\ restoreOverriddenStyles h styles (restoreAllStyles h styles this)
     = restoreAllStyles h styles this
  /\ restoreOwnStyles h styles (restoreOverriddenStyles h styles this)
     = restoreOwnStyles h styles this
  /\ restoreOverriddenStyles h styles (restoreOwnStyles h styles this)
     = restoreOwnStyles h styles this.
Proof.
  rewrite !restoreOwnStyles_loop, !restoreAllStyles_loop, !restoreOverriddenStyles_loop.
  assert (Hown := loop_absorbs (getOwnPropertyNames styles) (for_in styles) this
                    mem_own_for_in).
  assert (Hover := loop_absorbs (filter (overrides_parent styles) (for_in styles))
                     (for_in styles) this
                     (fun k Hk => mem_own_for_in k (mem_overridden_own k Hk))).
  assert (Hoo := loop_absorbs (filter (overrides_parent styles) (for_in styles))
                   (getOwnPropertyNames styles) this mem_overridden_own).
  refine (conj (proj1 Hown) (conj (proj2 Hown) (conj (proj1 Hover)
            (conj (proj2 Hover) (conj (proj1 Hoo) (proj2 Hoo)))))).
Qed.

(** X10. On a shape whose every attribute with a default already equals it
    under the attribute's rule, the three reset operations change nothing
    and arm nothing. *)
Theorem reset_at_defaults (this : Shape) :
  (forall k d, get styles k = Some d -> style_equal h (read k this) d = true) ->
  restoreOwnStyles h styles this = this
  /\ restoreAllStyles h styles this = this
  /\ restoreOverriddenStyles h styles this = this.
Proof.
  intros H.
  assert (Hstep : forall k, match get styles k with
                            | Some e => assign h e this
                            | None => this
                            end = this).
  { intros k. destruct (get styles k) as [d|] eqn:Hd; [|reflexivity].
    rewrite assign_spec, (get_property _ _ _ Hd), (H k d Hd). reflexivity. }
  rewrite restoreOwnStyles_loop, restoreAllStyles_loop, restoreOverriddenStyles_loop.
  unfold loop. refine (conj _ (conj _ _)); apply fold_left_fixed; exact Hstep.
Qed.

(** X11. No setter and no reset operation takes the stored opacity out of
    NaN-or-[[0,1]]. *)
Theorem opacity_range_invariant (e : Style) (this : Shape) :
  opacity_ok (opacity this) = true ->
  opacity_ok (opacity (assign h e this)) = true
  /\ opacity_ok (opacity (restoreOwnStyles h styles this)) = true
  /\ opacity_ok (opacity (restoreAllStyles h styles this)) = true
  /\ opacity_ok (opacity (restoreOverriddenStyles h styles this)) = true.
Proof.
  intros Hok.
  assert (Hassign : forall d s, opacity_ok (opacity s) = true ->
                                opacity_ok (opacity (assign h d s)) = true).
  { intros d s Hs. rewrite assign_spec.
    destruct (style_equal h (read (property_of d) s) d); [exact Hs|].
    destruct d; try exact Hs. apply opacity_ok_clamp. }
  assert (Hstep : forall s k, opacity_ok (opacity s) = true ->
                    opacity_ok (opacity match get styles k with
                                        | Some d => assign h d s
                                        | None => s
                                        end) = true).
  { intros s k Hs. destruct (get styles k); [apply Hassign|]; exact Hs. }
  rewrite restoreOwnStyles_loop, restoreAllStyles_loop, restoreOverriddenStyles_loop.
  unfold loop.
  refine (conj (Hassign e this Hok) (conj _ (conj _ _)));
    apply (fold_left_invariant (fun s => opacity_ok (opacity s) = true));
    try exact Hstep; exact Hok.
Qed.

End ResetLaws.

(** X12. When the direct parent of a variant declares nothing of its own, as
    the empty object under [Shape.defaultStyles], nothing is an override and
    [restoreOverriddenStyles] is the identity. *)
Theorem restoreOverriddenStyles_no_parent_table (h : Heap) (own : list Style)
    (proto : StyleObject) (this : Shape) :
  restoreOverriddenStyles h (chainObjects (chainObjects proto []) own) this = this.
Proof.
  rewrite restoreOverriddenStyles_loop.
  replace (filter (overrides_parent (chainObjects (chainObjects proto []) own))
             (for_in (chainObjects (chainObjects proto []) own)))
    with (@nil Property); [reflexivity|].
  induction (for_in (chainObjects (chainObjects proto []) own)) as [|k l IH];
    [reflexivity|].
  cbn [filter]. rewrite <- IH.
  unfold overrides_parent. cbn [chainObjects tables own_has existsb].
  rewrite andb_false_r. reflexivity.
Qed.

(** In a variant of [Shape] every attribute resolves to a default. *)
Lemma get_derive_total (declared : list (list Style)) (k : Property) :
  get (derive declared) k <> None.
Proof.
  induction declared as [|own rest IH].
  - destruct k; discriminate.
  - cbn [derive chainObjects get]. destruct (own_get own k); [discriminate|exact IH].
Qed.

(** X13. For every variant of [Shape], however many classes lie between,
    each of the nine attributes has a resolved default, and
    [restoreAllStyles] leaves it as its setter does for that default. *)
Theorem restoreAllStyles_every_attribute (h : Heap) (declared : list (list Style))
    (this : Shape) (k : Property) :
  exists d,
    get (derive declared) k = Some d
    /\ property_of d = k
    /\ read k (restoreAllStyles h (derive declared) this) = read k (assign h d this)
    /\ holds_default h d (restoreAllStyles h (derive declared) this).
Proof.
  destruct (get (derive declared) k) as [d|] eqn:Hd;
    [|contradiction (get_derive_total declared k)].
  exists d. pose proof (get_property _ _ _ Hd) as Hk.
  assert (Hread : read k (restoreAllStyles h (derive declared) this)
                  = read k (assign h d this)).
  { rewrite restoreAllStyles_loop.
    rewrite (restore_read h (get (derive declared)) (get_property (derive declared))).
    rewrite mem_for_in, Hd. reflexivity. }
  refine (conj eq_refl (conj Hk (conj Hread _))).
  apply (holds_default_read h d _ (assign h d this)).
  - rewrite Hk. exact Hread.
  - apply holds_default_assign.
Qed.

(** X14. A reset operation never clears the flag, and sets it exactly when
    some attribute it visits differs from its default under the attribute's
    rule. *)
Theorem reset_dirty (h : Heap) (styles : StyleObject) (this : Shape) :
  let differs := fun k => match get styles k with
                          | Some d => negb (style_equal h (read k this) d)
                          | None => false
                          end in
  dirty (restoreOwnStyles h styles this)
  = dirty this || existsb differs (getOwnPropertyNames styles)
  /\ dirty (restoreAllStyles h styles this)
     = dirty this || existsb differs (for_in styles)
  /\ dirty (restoreOverriddenStyles h styles this)
     = dirty this
       || existsb differs (filter (overrides_parent styles) (for_in styles)).
Proof.
  cbv zeta.
  rewrite restoreOwnStyles_loop, restoreAllStyles_loop, restoreOverriddenStyles_loop.
  refine (conj _ (conj _ _));
    apply (restore_dirty h (get styles) (get_property styles)).
Qed.

(** ** The writes of [applyContextAttributes] *)

(** Case analysis on every guard of [applyContextAttributes]. *)
Ltac apply_cases this :=
  destruct this as [f s w d o c j a sh di];
  unfold applyContextAttributes, if_paint, if_ref, when, put_shadow,
    fill, stroke, strokeWidth, lineDash, lineDashOffset, lineCap, lineJoin,
    opacity, shadow;
  cbn [_fill _stroke _strokeWidth _lineDash _lineDashOffset _lineCap _lineJoin
       _opacity _shadow];
  destruct f as [f|]; [destruct (paint_truthy (Some f)) eqn:Hf|];
  (destruct s as [s|]; [destruct (paint_truthy (Some s)) eqn:Hs|]);
  destruct d as [d|]; destruct (truthy o) eqn:Ho; destruct c; destruct j;
  destruct (lt a one) eqn:Ha; destruct sh as [sh|].

(** X15. The writes come in one fixed order (interior paint, outline paint,
    line width, dash, dash offset, cap, join, alpha, then the shadow's
    colour, offsets and blur), and no property of the sink is written
    twice. *)
Theorem applyContextAttributes_order (h : Heap) (this : Shape) :
  increasing (map write_rank (applyContextAttributes h this)) = true.
Proof. apply_cases this; reflexivity. Qed.

(** X16. The sink receives a global alpha exactly when the opacity is below
    1, and then it is the stored opacity; an opacity of 1 or NaN writes
    none. *)
Theorem applyContextAttributes_alpha (h : Heap) (this : Shape) :
  filter is_globalAlpha (applyContextAttributes h this) =
    if lt (opacity this) one then [Ctx.globalAlpha (opacity this)] else [].
Proof. apply_cases this; reflexivity. Qed.

(** X17. The shadow comes last: the writes are a shadow-free prefix followed,
    when a shadow is set, by its colour, x offset, y offset and blur as the
    shadow object holds them, and by nothing when it is unset. *)
Theorem applyContextAttributes_shadow (h : Heap) (this : Shape) :
  exists prefix,
    forallb (fun w => negb (is_shadow_write w)) prefix = true
    /\ applyContextAttributes h this =
         prefix ++ match shadow this with
                   | Some r =>
                       [Ctx.shadowColor (color (shadows h r));
                        Ctx.shadowOffsetX (x (offset (shadows h r)));
                        Ctx.shadowOffsetY (y (offset (shadows h r)));
                        Ctx.shadowBlur (blur (shadows h r))]
                   | None => []
                   end.
Proof.
  exists (applyContextAttributes h (put_shadow None this)).
  split.
  - apply_cases this; reflexivity.
  - apply_cases this; cbn [app]; rewrite ?app_nil_r; reflexivity.
Qed.

(** X18. Every value that reaches the sink passed its guard: no empty paint,
    no dash offset of 0 or NaN, no null cap or join, no alpha of 1 or
    more. *)
Theorem applyContextAttributes_guarded (h : Heap) (this : Shape) :
  forallb guarded_value (applyContextAttributes h this) = true.
Proof.
  apply_cases this;
    cbn [app forallb guarded_value lineCap_truthy lineJoin_truthy andb];
    rewrite ?Hf, ?Hs, ?Ho, ?Ha; reflexivity.
Qed.

Lemma strict_eq_one (a : number) : strict_eq a one = true -> a = one.
Proof.
  intros H. destruct (strict_eq_cases a one H) as [E|(_ & Ht & _)];
    [exact E|discriminate Ht].
Qed.

(** X19. After [restoreAllStyles] with the defaults of [Shape] itself, any
    shape, however it was styled, writes the black fill and nothing else. *)
Theorem applyContextAttributes_after_reset (h : Heap) (this : Shape) :
  applyContextAttributes h (restoreAllStyles h defaultStyles this)
  = [Ctx.fillStyle "black"].
Proof.
  assert (Hread : forall k d, get defaultStyles k = Some d ->
                    read k (restoreAllStyles h defaultStyles this)
                    = read k (assign h d this)).
  { intros k d Hd. rewrite restoreAllStyles_loop.
    rewrite (restore_read h (get defaultStyles) (get_property defaultStyles)).
    rewrite mem_for_in, Hd. reflexivity. }
  remember (restoreAllStyles h defaultStyles this) as this' eqn:Hthis'.
  clear Hthis'.
  assert (Hfill : fill this' = Some "black").
  { pose proof (Hread P_fill _ eq_refl) as H.
    pose proof (read_assign_exact h (Fill (Some "black")) this eq_refl) as E.
    cbn [property_of] in E. rewrite E in H. injection H as H. exact H. }
  assert (Hstroke : stroke this' = None).
  { pose proof (Hread P_stroke _ eq_refl) as H.
    pose proof (read_assign_exact h (Stroke None) this eq_refl) as E.
    cbn [property_of] in E. rewrite E in H. injection H as H. exact H. }
  assert (Hshadow : shadow this' = None).
  { pose proof (Hread P_shadow _ eq_refl) as H.
    pose proof (read_assign_exact h (Shadow None) this eq_refl) as E.
    cbn [property_of] in E. rewrite E in H. injection H as H. exact H. }
  assert (Hopacity : opacity this' = one).
  { pose proof (Hread P_opacity _ eq_refl) as H.
    pose proof (read_assign_same h (Opacity one) this) as E.
    cbn [property_of] in E. rewrite E in H. clear E.
    cbn [read style_equal stored] in H.
    change (Math_min [one; Math_max [zero; one]]) with one in H.
    destruct (strict_eq (opacity this) one) eqn:E; injection H as H; rewrite H.
    - apply strict_eq_one. exact E.
    - reflexivity. }
  unfold applyContextAttributes.
  rewrite Hfill, Hstroke, Hshadow, Hopacity, lt_one_one. reflexivity.
Qed.

(** ** Instances on the sample data *)

Lemma setters_commute_example :
  property_of (Fill (Some "red")) <> property_of (Opacity one_and_a_half)
  /\ set_fill (Some "red") (set_opacity one_and_a_half custom)
     = set_opacity one_and_a_half (set_fill (Some "red") custom).
Proof.
  split; [discriminate|].
  apply (setters_commute sample_heap (Fill (Some "red")) (Opacity one_and_a_half)).
  discriminate.
Defined.

Lemma getter_after_setter_example :
  identity_compared (Stroke (Some "red")) = true
  /\ read P_stroke (set_stroke (Some "red") custom) = Stroke (Some "red").
Proof.
  split; [reflexivity|].
  exact (getter_after_setter sample_heap (Stroke (Some "red")) custom eq_refl).
Defined.

Lemma lineDash_after_setter_example :
  let this := set_lineDash sample_heap (Some 1) new_Shape in
  lineDash (set_lineDash sample_heap (Some 2) this) = Some 1
  /\ (lineDash (set_lineDash sample_heap (Some 3) this) = Some 3
      \/ lineDash (set_lineDash sample_heap (Some 3) this) = lineDash this
         /\ exists o v, lineDash this = Some o /\ Some 3 = Some v /\ o <> v
                        /\ pairwise_equal (arrays sample_heap o) (arrays sample_heap v)
                           = true).
Proof.
  cbv zeta. split; [reflexivity|].
  exact (lineDash_after_setter sample_heap (Some 3)
           (set_lineDash sample_heap (Some 1) new_Shape)).
Defined.

Lemma NaN_always_arms_example :
  let this := put_dirty false (set_strokeWidth NaN new_Shape) in
  self_equal (StrokeWidth NaN) = false
  /\ read P_strokeWidth (set_strokeWidth NaN this) = StrokeWidth NaN
  /\ dirty (set_strokeWidth NaN this) = true.
Proof.
  cbv zeta. split; [reflexivity|].
  exact (NaN_always_arms sample_heap (StrokeWidth NaN)
           (put_dirty false (set_strokeWidth NaN new_Shape)) eq_refl).
Defined.

Lemma setter_settles_example :
  self_equal (Opacity one_and_a_half) = true
  /\ style_equal sample_heap
       (read P_opacity (set_opacity one_and_a_half custom))
       (Opacity one_and_a_half) = true
  /\ set_opacity one_and_a_half (put_dirty false (set_opacity one_and_a_half custom))
     = put_dirty false (set_opacity one_and_a_half custom).
Proof.
  split; [reflexivity|].
  exact (setter_settles sample_heap (Opacity one_and_a_half) custom false eq_refl).
Defined.

Lemma write_back_noop_example :
  self_equal (read P_opacity custom) = true
  /\ le zero (opacity custom) = true
  /\ le (opacity custom) one = true
  /\ set_opacity (opacity custom) custom = custom.
Proof.
  refine (conj eq_refl (conj eq_refl (conj eq_refl _))).
  exact (write_back_noop sample_heap P_opacity custom eq_refl
           (fun _ => conj eq_refl eq_refl)).
Defined.

Lemma reset_at_defaults_example :
  let this := set_strokeWidth two new_Shape in
  restoreOwnStyles sample_heap thickStyles this = this
  /\ restoreAllStyles sample_heap thickStyles this = this
  /\ restoreOverriddenStyles sample_heap thickStyles this = this.
Proof.
  cbv zeta.
  apply (reset_at_defaults sample_heap thickStyles (set_strokeWidth two new_Shape)).
  intros k d. destruct k; intros H; injection H as <-; reflexivity.
Defined.

Lemma opacity_range_invariant_example :
  opacity_ok (opacity custom) = true
  /\ opacity_ok (opacity (set_opacity five custom)) = true
  /\ opacity_ok (opacity (restoreAllStyles sample_heap thickStyles custom)) = true.
Proof.
  split; [reflexivity|].
  destruct (opacity_range_invariant sample_heap thickStyles (Opacity five) custom
              eq_refl) as (H1 & _ & H3 & _).
  exact (conj H1 H3).
Defined.
